(** * A shallow embedding of the deposition package (mmtn/deposition-molecular-dynamics)

    Floating-point quantities (coordinates, velocities, masses, cut-offs)
    are modelled as exact rationals [Q]; Python integers as [Z] (or [nat]
    for lengths and counters). Exceptions are the constructors of [exn];
    a computation either returns ([Ok]), raises ([Raise]) or, for the
    source's unbounded [while True] loops run with a fuel bound, has not
    returned yet ([Timeout]).

    numpy's global random number generator is a counter [k : nat] into two
    draw oracles: [draw_normal k loc var] is the [k]-th value of
    [np.random.normal(loc, sqrt var)], [draw_uniform k lo hi] the [k]-th
    value of [np.random.uniform(lo, hi)]. Both share the counter, as numpy's
    global state does. Theorems quantify over every pair of oracles, so they
    hold for every outcome of the random draws. *)

From Stdlib Require Import QArith Qabs ZArith String List Bool Lia.
Import ListNotations.

Open Scope Q_scope.

Inductive exn :=
| ValueError
| RuntimeWarning
| RuntimeError
| ZeroDivisionError
| NameError
| IndexError
| KeyError
| FileNotFoundError
| TypeError
| YAMLError.

Inductive result (A : Type) :=
| Ok (a : A)
| Raise (e : exn)
| Timeout.
Arguments Ok {A} a.
Arguments Raise {A} e.
Arguments Timeout {A}.

(** The random-state monad: the state is the index of the next draw. *)
Definition M (A : Type) : Type := nat -> result (A * nat).

Definition ret {A} (a : A) : M A := fun k => Ok (a, k).

Definition bind {A B} (m : M A) (f : A -> M B) : M B :=
  fun k => match m k with
           | Ok (a, k') => f a k'
           | Raise e => Raise e
           | Timeout => Timeout
           end.

Definition raise {A} (e : exn) : M A := fun _ => Raise e.

Definition lift {A} (r : result A) : M A :=
  fun k => match r with
           | Ok a => Ok (a, k)
           | Raise e => Raise e
           | Timeout => Timeout
           end.

Notation "x <- m ;; f" := (bind m (fun x => f))
  (at level 61, m at next level, right associativity).

(** Sequencing of computations that draw no random numbers. *)
Definition rbind {A B} (r : result A) (f : A -> result B) : result B :=
  match r with
  | Ok a => f a
  | Raise e => Raise e
  | Timeout => Timeout
  end.

Notation "x <-? r ;; f" := (rbind r (fun x => f))
  (at level 61, r at next level, right associativity).

(** ** Vectors and the simulation cell *)

Record vec3 := V3 { x3 : Q; y3 : Q; z3 : Q }.

Definition vadd (a b : vec3) : vec3 := V3 (x3 a + x3 b) (y3 a + y3 b) (z3 a + z3 b).
Definition vsub (a b : vec3) : vec3 := V3 (x3 a - x3 b) (y3 a - y3 b) (z3 a - z3 b).
Definition vscale (s : Q) (a : vec3) : vec3 := V3 (s * x3 a) (s * y3 a) (s * z3 a).
Definition dot (a b : vec3) : Q := x3 a * x3 b + y3 a * y3 b + z3 a * z3 b.

(** The entries of the [simulation_cell] dictionary read by the code. *)
Record simulation_cell := {
  x_min : Q; x_max : Q;
  y_min : Q; y_max : Q;
  z_min : Q; z_max : Q;
  tilt_xy : Q;
  x_vector : vec3; y_vector : vec3; z_vector : vec3
}.

(** Strict comparison of rationals, as Python's [<] on floats. *)
Definition Qlt_bool (x y : Q) : bool := negb (Qle_bool y x).

(** [np.linalg.norm(s) < c]. The norm is non-negative, so the comparison
    holds exactly when [c > 0] and [s.s < c*c]; this decides it over the
    rationals without a square root. *)
Definition norm_lt (s : vec3) (c : Q) : bool :=
  Qlt_bool 0 c && Qlt_bool (dot s s) (c * c).

(** Python's [max] and [min]: the first element, replaced by every later
    element that compares strictly greater (smaller); [ValueError] on an
    empty sequence. *)
Definition py_max (l : list Q) : result Q :=
  match l with
  | [] => Raise ValueError
  | h :: t => Ok (fold_left (fun m x => if Qlt_bool m x then x else m) t h)
  end.

Definition py_min (l : list Q) : result Q :=
  match l with
  | [] => Raise ValueError
  | h :: t => Ok (fold_left (fun m x => if Qlt_bool x m then x else m) t h)
  end.

(** ** structural_analysis.py *)

Definition get_surface_height (simulation_cell : simulation_cell)
    (coordinates : list vec3) (percentage_of_box_to_search : Q) : result Q :=
  let lz := z_max simulation_cell - z_min simulation_cell in
  let cutoff := lz * (percentage_of_box_to_search / 100) in
  let z := map z3 (filter (fun xyz => Qlt_bool (z3 xyz) cutoff) coordinates) in
  py_max z.

Definition wrap_periodic_coordinates_in_z (simulation_cell : simulation_cell)
    (coordinates : list vec3) (cutoff_percentage : Q) : list vec3 :=
  let lz := z_max simulation_cell - z_min simulation_cell in
  let cutoff := lz * (cutoff_percentage / 100) in
  map (fun xyz => if Qlt_bool cutoff (z3 xyz)
                  then vsub xyz (z_vector simulation_cell) else xyz)
      coordinates.

(** [np.ndindex(a, b)]: the index pairs in row-major order. *)
Definition ndindex (a b : nat) : list (nat * nat) :=
  flat_map (fun i => map (fun j => (i, j)) (seq 0 b)) (seq 0 a).

(** [np.add(x * x_shift, y * y_shift)] *)
Definition xy_shift (simulation_cell : simulation_cell) (x y : Z) : vec3 :=
  vadd (vscale (inject_Z x) (x_vector simulation_cell))
       (vscale (inject_Z y) (y_vector simulation_cell)).

Definition generate_periodic_images_xy (simulation_cell : simulation_cell)
    (coordinates : list vec3) (num_copies : nat) : list vec3 :=
  let total_copies := (num_copies * 2 + 1)%nat in
  fold_left
    (fun coordinates_periodic_xy '(ix, iy) =>
       let x := (Z.of_nat ix - Z.of_nat num_copies)%Z in
       let y := (Z.of_nat iy - Z.of_nat num_copies)%Z in
       if negb (Z.eqb x 0) || negb (Z.eqb y 0)
       then coordinates_periodic_xy
              ++ map (fun xyz => vadd xyz (xy_shift simulation_cell x y)) coordinates
       else coordinates_periodic_xy)
    (ndindex total_copies total_copies) coordinates.

(** The neighbour counts of [generate_neighbour_list]. For an empty
    coordinate list the Python function computes no counts: in
    [generate_periodic_images_xy], [np.add] of the empty array (shape (0,))
    and a shift vector (shape (3,)) raises [ValueError]; its callers below
    raise it there. *)
Definition generate_neighbour_list (simulation_cell : simulation_cell)
    (coordinates : list vec3) (bonding_distance_cutoff : Q) : list nat :=
  let coordinates := wrap_periodic_coordinates_in_z simulation_cell coordinates 80 in
  let coordinates_periodic_xy := generate_periodic_images_xy simulation_cell coordinates 1 in
  map (fun reference =>
         length (filter (fun atom => norm_lt (vsub reference atom) bonding_distance_cutoff)
                        coordinates_periodic_xy))
      coordinates.

(** The [if/elif/else] choosing [min_neighbours]; [None] is the [else]
    branch that raises [ValueError]. *)
Definition min_neighbours_for (deposition_type : string) : option nat :=
  if String.eqb deposition_type "monatomic" then Some 1%nat
  else if String.eqb deposition_type "diatomic" then Some 2%nat
  else if String.eqb deposition_type "molecule" then Some 0%nat
  else None.

(** The call of [generate_neighbour_list] raises [ValueError] for an empty
    coordinate list (the broadcast in [generate_periodic_images_xy]). *)
Definition check_min_neighbours (simulation_cell : simulation_cell)
    (coordinates : list vec3) (deposition_type : string)
    (bonding_distance_cutoff : Q) : result unit :=
  match min_neighbours_for deposition_type with
  | None => Raise ValueError
  | Some min_neighbours =>
      match coordinates with
      | [] => Raise ValueError
      | _ =>
          let neighbour_list :=
            generate_neighbour_list simulation_cell coordinates bonding_distance_cutoff in
          if existsb (fun n => Nat.leb n min_neighbours) neighbour_list
          then Raise RuntimeWarning
          else Ok tt
      end
  end.

Definition check_bonding_at_image (simulation_cell : simulation_cell)
    (coordinates : list vec3) (elements : list string) (deposited_element : string)
    (bonding_distance_cutoff : Q) : result unit :=
  let coordinates := wrap_periodic_coordinates_in_z simulation_cell coordinates 80 in
  let deposited_coordinates_z :=
    map (fun '(_, xyz) => z3 xyz)
        (filter (fun '(element, _) => String.eqb element deposited_element)
                (combine elements coordinates)) in
  match py_min (map z3 coordinates) with
  | Raise e => Raise e
  | Timeout => Timeout
  | Ok min_z =>
      let distance_from_lower_interface :=
        map (fun z => Qabs (z - min_z)) deposited_coordinates_z in
      if existsb (fun d => Qle_bool d bonding_distance_cutoff) distance_from_lower_interface
      then Raise RuntimeWarning
      else Ok tt
  end.

(** src/src/structural_analysis.py, the earlier version of the module: the
    same functions with the cell given after the coordinates, the wrapping
    cutoff fixed at [lz * 0.8], and [check_min_neighbours] reading
    [deposition_type] and [bonding_distance_cutoff_Angstroms] from the
    settings. *)
Module Legacy_structural_analysis.

Definition wrap_periodic_coordinates_in_z (coordinates : list vec3)
    (simulation_cell : simulation_cell) : list vec3 :=
  let lz := z_max simulation_cell - z_min simulation_cell in
  map (fun xyz => if Qlt_bool (lz * (8 # 10)) (z3 xyz)
                  then vsub xyz (z_vector simulation_cell) else xyz)
      coordinates.

Definition periodic_images_xy (coordinates : list vec3) (simulation_cell : simulation_cell)
    (num_copies : nat) : list vec3 :=
  let total_copies := (num_copies * 2 + 1)%nat in
  fold_left
    (fun coordinates_periodic_xy '(ix, iy) =>
       let x := (Z.of_nat ix - Z.of_nat num_copies)%Z in
       let y := (Z.of_nat iy - Z.of_nat num_copies)%Z in
       if negb (Z.eqb x 0) || negb (Z.eqb y 0)
       then coordinates_periodic_xy
              ++ map (fun xyz => vadd xyz (xy_shift simulation_cell x y)) coordinates
       else coordinates_periodic_xy)
    (ndindex total_copies total_copies) coordinates.

(** As in the current module, the counts for a non-empty list; an empty
    list makes [periodic_images_xy] raise [ValueError] (broadcast of shape
    (0,) with (3,)). *)
Definition generate_neighbour_list (coordinates : list vec3)
    (simulation_cell : simulation_cell) (bonding_distance_cutoff : Q) : list nat :=
  let coordinates := wrap_periodic_coordinates_in_z coordinates simulation_cell in
  let coordinates_periodic_xy := periodic_images_xy coordinates simulation_cell 1 in
  map (fun reference =>
         length (filter (fun atom => norm_lt (vsub reference atom) bonding_distance_cutoff)
                        coordinates_periodic_xy))
      coordinates.

(** The neighbour list is computed before [min_neighbours] is used, so an
    empty coordinate list raises its [ValueError] first. With a deposition
    type other than [monatomic] and [diatomic], [min_neighbours] is unbound
    when it is compared ([UnboundLocalError], a [NameError]). *)
Definition check_min_neighbours (deposition_type : string) (bonding_distance_cutoff : Q)
    (simulation_cell : simulation_cell) (coordinates : list vec3) : result unit :=
  let min_neighbours :=
    if String.eqb deposition_type "monatomic" then Some 1%nat
    else if String.eqb deposition_type "diatomic" then Some 2%nat
    else None in
  match coordinates with
  | [] => Raise ValueError
  | _ =>
      let neighbour_list :=
        generate_neighbour_list coordinates simulation_cell bonding_distance_cutoff in
      match min_neighbours with
      | None => Raise NameError
      | Some min_neighbours =>
          if existsb (fun n => Nat.leb n min_neighbours) neighbour_list
          then Raise RuntimeWarning
          else Ok tt
      end
  end.

End Legacy_structural_analysis.

(** ** Settings, checkpoints and YAML documents *)

(** The entries of the settings dictionary read by
    [append_new_coordinates_and_velocities]. *)
Record deposition_settings := {
  num_deposited_per_iteration : Z;
  deposition_temperature_Kelvin : Q;
  deposition_type : string;
  minimum_deposition_velocity_metres_per_second : Q;
  deposition_height_Angstroms : Q;
  deposition_element : string;
  diatomic_bond_length_Angstroms : Q;
  molecule_xyz_file : string
}.

(** The [Status] class declared at the end of deposition.py; its fields
    carry a [ds_] prefix to keep them apart from status.py's [Status]. *)
Record DepositionStatus := {
  ds_iteration_number : Z;
  ds_sequential_failures : Z;
  ds_total_failures : Z;
  ds_pickle_location : string
}.

(** A scalar of a YAML document as PyYAML loads it. *)
Inductive yaml_scalar :=
| YInt (z : Z)
| YStr (s : string)
| YTime (t : Z).

(** A YAML mapping, in the order of its entries. *)
Definition yaml_document := list (string * yaml_scalar).

(** The dictionary PyYAML builds from a mapping: later entries overwrite
    earlier ones with the same key; [status[key]] raises [KeyError] when
    the key is absent. *)
Definition dict_lookup (key : string) (d : yaml_document) : result yaml_scalar :=
  fold_left (fun acc '(k, v) => if String.eqb k key then Ok v else acc) d (Raise KeyError).

(** status.py: [Status]; [last_updated] holds the value as it was given
    (a [datetime] once [write] has run). *)
Record Status := {
  iteration_number : Z;
  sequential_failures : Z;
  total_failures : Z;
  pickle_location : string;
  last_updated : yaml_scalar
}.

(** enums.py: [StatusEnum] *)
Definition StatusEnum_ITERATION_NUMBER : string := "iteration_number".
Definition StatusEnum_LAST_UPDATED : string := "last_updated".
Definition StatusEnum_PICKLE_LOCATION : string := "pickle_location".
Definition StatusEnum_SEQUENTIAL_FAILURES : string := "sequential_failures".
Definition StatusEnum_TOTAL_FAILURES : string := "total_failures".

Definition Status_as_dict (self : Status) : yaml_document :=
  [(StatusEnum_ITERATION_NUMBER, YInt (iteration_number self));
   (StatusEnum_SEQUENTIAL_FAILURES, YInt (sequential_failures self));
   (StatusEnum_TOTAL_FAILURES, YInt (total_failures self));
   (StatusEnum_PICKLE_LOCATION, YStr (pickle_location self));
   (StatusEnum_LAST_UPDATED, last_updated self)].

(** Python's [str.split()] without arguments: maximal runs of
    non-whitespace characters. *)
Definition is_whitespace (c : Ascii.ascii) : bool :=
  match Ascii.nat_of_ascii c with
  | 9 | 10 | 11 | 12 | 13 | 32 => true
  | _ => false
  end%nat.

Fixpoint split_words (s : string) (current : string) : list string :=
  match s with
  | EmptyString => match current with EmptyString => [] | _ => [current] end
  | String c rest =>
      if is_whitespace c
      then match current with
           | EmptyString => split_words rest EmptyString
           | _ => current :: split_words rest EmptyString
           end
      else split_words rest (current ++ String c EmptyString)
  end.

Definition py_split (s : string) : list string := split_words s EmptyString.

(** physics.py: [CONSTANTS] *)
Definition BoltzmannConstant : Q := Qmake 1380658 (Pos.pow 10 29).
Definition AtomicMassUnit_kg : Q := Qmake 166053906660 (Pos.pow 10 38).

(** ** The sampling, injection, input and control code *)

Section Deposition_model.

(** numpy's random draws (see the head of the file). *)
Variable draw_normal : nat -> Q -> Q -> Q.
Variable draw_uniform : nat -> Q -> Q -> Q.
(** pymatgen's [Element(symbol).atomic_mass] in atomic mass units; [None]
    when [Element(symbol)] raises [ValueError] (unknown symbol). *)
Variable atomic_mass : string -> option Q.
(** The file system: a file's content as its list of lines. *)
Variable files : string -> option (list string).
(** Python's [int(s)] and [float(s)] on a string; [None] is [ValueError]. *)
Variable py_int : string -> option Z.
Variable py_float : string -> option Q.
(** [Iteration(...).run()] for the [k]-th iteration of this process, from
    the current checkpoint: (success, pickle_location). *)
Variable iteration_run : nat -> DepositionStatus -> bool * string.
(** PyYAML's [yaml.dump] of a mapping and [yaml.safe_load] of the file it
    wrote, and Python's [str] of a non-string scalar. *)
Variable yaml_file : Type.
Variable yaml_dump : yaml_document -> yaml_file.
Variable yaml_safe_load : yaml_file -> result yaml_document.
Variable py_str : yaml_scalar -> string.

(** maths.py: [normal_distribution]; the draw is taken with its variance. *)
Definition normal_distribution (mean variance : Q) : M Q :=
  fun k => Ok (draw_normal k mean variance, S k).

(** physics.py: [velocity_from_normal_distribution] with [mean=0.0]. The
    square root in [sigma] raises [ValueError] for a negative variance. *)
Definition velocity_from_normal_distribution (gas_temperature particle_mass : Q) : M Q :=
  if Qlt_bool 0 particle_mass
  then let variance := BoltzmannConstant * gas_temperature / particle_mass in
       if Qlt_bool variance 0 then raise ValueError
       else normal_distribution 0 variance
  else ret 0.

(** randomisation.py: the [for ii in range(max_iterations)] loop of
    [random_velocity]. *)
Fixpoint random_velocity_loop (gas_temperature particle_mass minimum_velocity vx vy : Q)
    (iterations : nat) : M vec3 :=
  match iterations with
  | O => raise ValueError
  | S n =>
      vz0 <- velocity_from_normal_distribution gas_temperature particle_mass ;;
      let vz := Qabs vz0 in
      if Qlt_bool minimum_velocity vz
      then ret (V3 vx vy (- vz))
      else random_velocity_loop gas_temperature particle_mass minimum_velocity vx vy n
  end.

Definition random_velocity (gas_temperature particle_mass minimum_velocity : Q)
    (max_iterations : nat) : M vec3 :=
  vx <- velocity_from_normal_distribution gas_temperature particle_mass ;;
  vy <- velocity_from_normal_distribution gas_temperature particle_mass ;;
  random_velocity_loop gas_temperature particle_mass minimum_velocity vx vy max_iterations.

(** [np.random.uniform(low, high)] *)
Definition uniform (low high : Q) : M Q :=
  fun k => Ok (draw_uniform k low high, S k).

(** [mplpath.Path(polygon).get_extents()] of a polygon given by its
    vertices: (xmin, xmax, ymin, ymax). *)
Definition get_extents (polygon : list (Q * Q)) : result (Q * Q * Q * Q) :=
  match py_min (map fst polygon), py_max (map fst polygon),
        py_min (map snd polygon), py_max (map snd polygon) with
  | Ok xmin, Ok xmax, Ok ymin, Ok ymax => Ok (xmin, xmax, ymin, ymax)
  | _, _, _, _ => Raise ValueError
  end.

(** [Path.contains_point], after matplotlib's [point_in_path] (a library
    routine): the crossing-number test over the closed polygon, an edge
    from [(x0, y0)] to [(x1, y1)] toggling the answer when it crosses the
    horizontal line through the point to the right of the point. *)
Definition edge_crosses (point v0 v1 : Q * Q) : bool :=
  let '(tx, ty) := point in
  let '(vtx0, vty0) := v0 in
  let '(vtx1, vty1) := v1 in
  let yflag0 := Qle_bool ty vty0 in
  let yflag1 := Qle_bool ty vty1 in
  if Bool.eqb yflag0 yflag1 then false
  else Bool.eqb (Qle_bool ((vtx1 - tx) * (vty0 - vty1)) ((vty1 - ty) * (vtx0 - vtx1))) yflag1.

Definition polygon_edges (polygon : list (Q * Q)) : list ((Q * Q) * (Q * Q)) :=
  match polygon with
  | [] => []
  | first :: rest => combine polygon (rest ++ [first])
  end.

Definition contains_point (polygon : list (Q * Q)) (point : Q * Q) : bool :=
  Nat.odd (length (filter (fun '(v0, v1) => edge_crosses point v0 v1) (polygon_edges polygon))).

(** maths.py: the [while True] loop of [get_random_point_in_polygon], run
    for at most [fuel] passes; [Timeout] means it has not returned yet. *)
Fixpoint random_point_loop (polygon : list (Q * Q)) (xmin xmax ymin ymax : Q)
    (fuel : nat) : M (Q * Q) :=
  match fuel with
  | O => fun _ => Timeout
  | S f =>
      px <- uniform xmin xmax ;;
      py <- uniform ymin ymax ;;
      if contains_point polygon (px, py) then ret (px, py)
      else random_point_loop polygon xmin xmax ymin ymax f
  end.

Definition get_random_point_in_polygon (fuel : nat) (polygon_coordinates : list (Q * Q))
    : M (Q * Q) :=
  bbox <- lift (get_extents polygon_coordinates) ;;
  let '(xmin, xmax, ymin, ymax) := bbox in
  random_point_loop polygon_coordinates xmin xmax ymin ymax fuel.

(** distributions.py: [UniformPositionDistribution._max_iterations] and the
    [for iteration in range(self._max_iterations)] loop of [get_position]. *)
Definition UniformPositionDistribution_max_iterations : nat := 10000.

Fixpoint uniform_position_loop (polygon : list (Q * Q)) (z xmin xmax ymin ymax : Q)
    (iterations : nat) : M (Q * Q * Q) :=
  match iterations with
  | O => raise RuntimeError
  | S n =>
      px <- uniform xmin xmax ;;
      py <- uniform ymin ymax ;;
      if contains_point polygon (px, py) then ret (px, py, z)
      else uniform_position_loop polygon z xmin xmax ymin ymax n
  end.

Definition UniformPositionDistribution_get_position (polygon_coordinates : list (Q * Q))
    (z : Q) : M (Q * Q * Q) :=
  bbox <- lift (get_extents polygon_coordinates) ;;
  let '(xmin, xmax, ymin, ymax) := bbox in
  uniform_position_loop polygon_coordinates z xmin xmax ymin ymax
    UniformPositionDistribution_max_iterations.

(** randomisation.py: [random_position]. [relative_shift[0:1]] is the
    one-element array [[shift_x]], which numpy broadcasts onto both columns
    of the polygon. *)
Definition random_position (fuel : nat) (simulation_cell : simulation_cell)
    (new_z_position : Q) : M vec3 :=
  let c := simulation_cell in
  let base_polygon_coordinates :=
    [(x_min c, y_min c); (x_max c, y_min c);
     (x_max c + tilt_xy c, y_max c); (x_min c + tilt_xy c, y_max c)] in
  let lz := z_max c - z_min c in
  if Qeq_bool lz 0 then raise ZeroDivisionError
  else
    let relative_height := new_z_position / lz in
    let relative_shift := vscale relative_height (z_vector c) in
    let polygon_coordinates :=
      map (fun '(px, py) => (px + x3 relative_shift, py + x3 relative_shift))
          base_polygon_coordinates in
    xy <- get_random_point_in_polygon fuel polygon_coordinates ;;
    ret (V3 (fst xy) (snd xy) new_z_position).

Definition random_diatomic_position (fuel : nat) (simulation_cell : simulation_cell)
    (new_z_position bond_length : Q) : M (list vec3) :=
  centre_position <- random_position fuel simulation_cell new_z_position ;;
  let position_atom_1 := V3 (x3 centre_position + bond_length / 2)
                            (y3 centre_position) (z3 centre_position) in
  let position_atom_2 := V3 (x3 centre_position - bond_length / 2)
                            (y3 centre_position) (z3 centre_position) in
  ret [position_atom_1; position_atom_2].

Definition random_diatomic_velocities (gas_temperature particle_mass bond_length
    minimum_velocity : Q) (max_iterations : nat) : M (list vec3) :=
  let moment_of_inertia := (particle_mass / 2) * (bond_length * bond_length) in
  rotational_xz <- velocity_from_normal_distribution gas_temperature moment_of_inertia ;;
  rotational_xy <- velocity_from_normal_distribution gas_temperature moment_of_inertia ;;
  let tangential_xz := rotational_xz * (bond_length / 2) in
  let tangential_xy := rotational_xy * (bond_length / 2) in
  v <- random_velocity gas_temperature (2 * particle_mass) minimum_velocity max_iterations ;;
  ret [V3 (x3 v) (y3 v + tangential_xz) (z3 v + tangential_xy);
       V3 (x3 v) (y3 v - tangential_xz) (z3 v - tangential_xy)].

Definition vsum (l : list vec3) : vec3 := fold_left vadd l (V3 0 0 0).

(** [random_molecule_position]; with no atom lines [read_xyz] returns an
    array of shape (0,), and adding it to the 3-vector [central_position]
    fails to broadcast ([ValueError]). *)
Definition random_molecule_position (fuel : nat) (simulation_cell : simulation_cell)
    (new_z_position : Q) (molecule_coordinates : list vec3) : M (list vec3) :=
  central_position <- random_position fuel simulation_cell new_z_position ;;
  match molecule_coordinates with
  | [] => raise ValueError
  | _ =>
      let centre_of_molecule :=
        vscale (1 / inject_Z (Z.of_nat (length molecule_coordinates)))
               (vsum molecule_coordinates) in
      ret (map (fun xyz => vadd central_position (vsub xyz centre_of_molecule))
               molecule_coordinates)
  end.

(** [random_molecule_velocities]; [np.repeat] raises [ValueError] for a
    negative count. *)
Definition random_molecule_velocities (gas_temperature molecule_mass minimum_velocity : Q)
    (num_atoms : Z) : M (list vec3) :=
  velocity <- random_velocity gas_temperature molecule_mass minimum_velocity 10000 ;;
  if Z.ltb num_atoms 0 then raise ValueError
  else ret (repeat velocity (Z.to_nat num_atoms)).

Definition element_mass (symbol : string) : result Q :=
  match atomic_mass symbol with Some m => Ok m | None => Raise ValueError end.

(** [masses = [Element(element).atomic_mass for element in ...]] *)
Fixpoint masses_of (molecule_elements : list string) : result (list Q) :=
  match molecule_elements with
  | [] => Ok []
  | e :: rest => m <-? element_mass e ;; ms <-? masses_of rest ;; Ok (m :: ms)
  end.

Definition calculate_molecular_mass (molecule_elements : list string) : result Q :=
  masses <-? masses_of molecule_elements ;;
  Ok (fold_left Qplus masses 0 * AtomicMassUnit_kg).

(** io.py: [read_xyz(xyz_file)] with [step=None] (the last frame). An atom
    line yields [float(atom[1]), float(atom[2]), float(atom[3])], evaluated
    left to right, and the label [atom[0]]. *)
Definition py_index (atom : list string) (i : nat) : result string :=
  match nth_error atom i with Some s => Ok s | None => Raise IndexError end.

Definition py_float_r (s : string) : result Q :=
  match py_float s with Some q => Ok q | None => Raise ValueError end.

Definition parse_atom (atom : list string) : result vec3 :=
  a1 <-? py_index atom 1 ;; x <-? py_float_r a1 ;;
  a2 <-? py_index atom 2 ;; y <-? py_float_r a2 ;;
  a3 <-? py_index atom 3 ;; z <-? py_float_r a3 ;;
  Ok (V3 x y z).

Fixpoint parse_atoms (atom_data : list (list string)) : result (list vec3) :=
  match atom_data with
  | [] => Ok []
  | atom :: rest =>
      xyz <-? parse_atom atom ;;
      l <-? parse_atoms rest ;;
      Ok (xyz :: l)
  end.

Definition read_xyz (xyz_file : string) : result (list vec3 * list string * Z) :=
  match files xyz_file with
  | None => Raise FileNotFoundError
  | Some lines =>
    let header_lines_per_step := 2%Z in
    let num_lines := Z.of_nat (length lines) in
    (* [int(file.readline())]: an empty file reads as the empty string *)
    match py_int (hd EmptyString lines) with
    | None => Raise ValueError
    | Some num_atoms =>
      let lines_per_step := (num_atoms + header_lines_per_step)%Z in
      if Z.eqb lines_per_step 0 then Raise ZeroDivisionError
      else
        (* [int(num_lines / lines_per_step)] truncates towards zero *)
        let total_steps := Z.quot num_lines lines_per_step in
        let num_lines_to_skip :=
          (lines_per_step * (total_steps - 1) + header_lines_per_step)%Z in
        (* [itertools.islice] refuses a negative count *)
        if Z.ltb num_lines_to_skip 0 then Raise ValueError
        else
          let atom_data := map py_split (skipn (Z.to_nat num_lines_to_skip) lines) in
          coordinates <-? parse_atoms atom_data ;;
          let elements := map (hd EmptyString) atom_data in
          Ok (coordinates, elements, num_atoms)
    end
  end.

(** One insertion event of [append_new_coordinates_and_velocities]: the
    body of [for ii in range(num_deposited)] before the three appends. A
    deposition type that matches no branch leaves [coordinates_new]
    unbound ([UnboundLocalError], a [NameError]). *)
Definition new_particles (fuel : nat) (settings : deposition_settings)
    (simulation_cell : simulation_cell) (new_z_position : Q)
    : M (list vec3 * list string * list vec3) :=
  let gas_temperature := deposition_temperature_Kelvin settings in
  let minimum_velocity := minimum_deposition_velocity_metres_per_second settings in
  let dtype := deposition_type settings in
  if String.eqb dtype "monatomic" then
    match atomic_mass (deposition_element settings) with
    | None => raise ValueError
    | Some mass =>
        let particle_mass := mass * AtomicMassUnit_kg in
        coordinates_new <- random_position fuel simulation_cell new_z_position ;;
        let elements_new := repeat (deposition_element settings) 1 in
        velocities_new <- random_velocity gas_temperature particle_mass minimum_velocity 10000 ;;
        ret ([coordinates_new], elements_new, [velocities_new])
    end
  else if String.eqb dtype "diatomic" then
    match atomic_mass (deposition_element settings) with
    | None => raise ValueError
    | Some mass =>
        let particle_mass := mass * AtomicMassUnit_kg in
        let bond_length := diatomic_bond_length_Angstroms settings in
        coordinates_new <- random_diatomic_position fuel simulation_cell new_z_position bond_length ;;
        let elements_new := repeat (deposition_element settings) 2 in
        velocities_new <- random_diatomic_velocities gas_temperature particle_mass bond_length
                            minimum_velocity 10000 ;;
        ret (coordinates_new, elements_new, velocities_new)
    end
  else if String.eqb dtype "molecule" then
    molecule <- lift (read_xyz (molecule_xyz_file settings)) ;;
    let '(molecule_coordinates, molecule_elements, num_atoms) := molecule in
    molecule_mass <- lift (calculate_molecular_mass molecule_elements) ;;
    coordinates_new <- random_molecule_position fuel simulation_cell new_z_position
                         molecule_coordinates ;;
    velocities_new <- random_molecule_velocities gas_temperature molecule_mass
                        minimum_velocity num_atoms ;;
    ret (coordinates_new, molecule_elements, velocities_new)
  else raise NameError.

Fixpoint deposit_loop (fuel : nat) (settings : deposition_settings)
    (simulation_cell : simulation_cell) (new_z_position velocity_scaling : Q)
    (remaining : nat) (coordinates : list vec3) (elements : list string)
    (velocities : list vec3) : M (list vec3 * list string * list vec3) :=
  match remaining with
  | O => ret (coordinates, elements, velocities)
  | S n =>
      fresh <- new_particles fuel settings simulation_cell new_z_position ;;
      let '(coordinates_new, elements_new, velocities_new) := fresh in
      deposit_loop fuel settings simulation_cell new_z_position velocity_scaling n
        (coordinates ++ coordinates_new)
        (elements ++ elements_new)
        (velocities ++ map (vscale velocity_scaling) velocities_new)
  end.

Definition append_new_coordinates_and_velocities (fuel : nat) (settings : deposition_settings)
    (coordinates : list vec3) (elements : list string) (velocities : list vec3)
    (simulation_cell : simulation_cell) (velocity_scaling : Q)
    : M (list vec3 * list string * list vec3) :=
  let num_deposited := num_deposited_per_iteration settings in
  surface_height <- lift (get_surface_height simulation_cell coordinates 80) ;;
  let new_z_position := surface_height + deposition_height_Angstroms settings in
  deposit_loop fuel settings simulation_cell new_z_position velocity_scaling
    (Z.to_nat num_deposited) coordinates elements velocities.

(** deposition.py: [Deposition.run]. One pass of the [while True] body
    updates the checkpoint from the iteration's outcome. *)
Definition update_status (status : DepositionStatus) (success : bool)
    (new_pickle_location : string) : DepositionStatus :=
  {| ds_iteration_number := ds_iteration_number status + 1;
     ds_sequential_failures :=
       if success then 0 else ds_sequential_failures status + 1;
     ds_total_failures :=
       if success then ds_total_failures status else ds_total_failures status + 1;
     ds_pickle_location := new_pickle_location |}%Z.

(** The loop, for at most [fuel] passes; [k] counts the passes made. The
    result is the exit code with the final checkpoint. *)
Fixpoint run_loop (fuel : nat) (k : nat) (max_iterations max_failures : Z)
    (status : DepositionStatus) : result (Z * DepositionStatus) :=
  match fuel with
  | O => Timeout
  | S f =>
      let '(success, new_pickle_location) := iteration_run k status in
      let status := update_status status success new_pickle_location in
      if Z.ltb max_iterations (ds_iteration_number status) then Ok (0%Z, status)
      else if Z.ltb max_failures (ds_sequential_failures status) then Ok (1%Z, status)
      else run_loop f (S k) max_iterations max_failures status
  end.

(** The [Status] that [initial_setup] builds when no status file exists. *)
Definition initial_status : DepositionStatus :=
  {| ds_iteration_number := 1; ds_sequential_failures := 0; ds_total_failures := 0;
     ds_pickle_location := "initial_positions.pickle" |}%Z.

(** [initial_setup]: after building [initial_status] it reads the
    substrate file, then calls [io.write_state(state, pickle_location,
    include_velocities=False)]; io.py's [write_state(coordinates, elements,
    velocities, pickle_location)] has no [include_velocities] parameter, so
    the call raises [TypeError] and the method never returns. *)
Definition initial_setup (substrate_xyz_file : string) : result DepositionStatus :=
  _state <-? read_xyz substrate_xyz_file ;;
  Raise TypeError.

(** [Deposition.run]; [status] is [self.status], [None] when no status
    file was found. *)
Definition Deposition_run (fuel : nat) (substrate_xyz_file : string)
    (status : option DepositionStatus)
    (max_total_iterations max_sequential_failures : Z) : result (Z * DepositionStatus) :=
  status <-? match status with
             | None => initial_setup substrate_xyz_file
             | Some s => Ok s
             end ;;
  run_loop fuel 0 max_total_iterations max_sequential_failures status.

(** status.py: [Status.write] stamps [last_updated] with the current time
    [now] and dumps [as_dict()]; the result is the updated object and the
    file written. *)
Definition Status_write (now : Z) (self : Status) : Status * yaml_file :=
  let self := {| iteration_number := iteration_number self;
                 sequential_failures := sequential_failures self;
                 total_failures := total_failures self;
                 pickle_location := pickle_location self;
                 last_updated := YTime now |} in
  (self, yaml_dump (Status_as_dict self)).

Definition py_int_of (v : yaml_scalar) : result Z :=
  match v with
  | YInt z => Ok z
  | YStr s => match py_int s with Some z => Ok z | None => Raise ValueError end
  | YTime _ => Raise TypeError
  end.

Definition py_str_of (v : yaml_scalar) : string :=
  match v with
  | YStr s => s
  | _ => py_str v
  end.

(** [Status.from_file]; [None] is a missing file. *)
Definition Status_from_file (file : option yaml_file) : result Status :=
  match file with
  | None => Raise FileNotFoundError
  | Some f =>
    match yaml_safe_load f with
    | Raise e => Raise e
    | Timeout => Timeout
    | Ok status =>
      it <-? dict_lookup StatusEnum_ITERATION_NUMBER status ;; it <-? py_int_of it ;;
      sf <-? dict_lookup StatusEnum_SEQUENTIAL_FAILURES status ;; sf <-? py_int_of sf ;;
      tf <-? dict_lookup StatusEnum_TOTAL_FAILURES status ;; tf <-? py_int_of tf ;;
      pl <-? dict_lookup StatusEnum_PICKLE_LOCATION status ;;
      lu <-? dict_lookup StatusEnum_LAST_UPDATED status ;;
      Ok {| iteration_number := it; sequential_failures := sf;
            total_failures := tf; pickle_location := py_str_of pl;
            last_updated := lu |}
    end
  end.

(** Sums of one component over a list of vectors. *)
Definition sum_component (f : vec3 -> Q) (l : list vec3) : Q := fold_right Qplus 0 (map f l).

(** The checkpoint counters agree with each other. *)
Definition counters_consistent (s : DepositionStatus) : Prop :=
  (0 <= ds_sequential_failures s <= ds_total_failures s /\
   ds_total_failures s <= ds_iteration_number s - 1)%Z.

(** Equality of vectors component by component, as rationals. *)
Definition veqv (a b : vec3) : Prop := x3 a == x3 b /\ y3 a == y3 b /\ z3 a == z3 b.

(** deposition.py: [Deposition.write_status] dumps the mapping built from
    [self.status], stamped with the current time [now]. *)
Definition Deposition_write_status (now : Z) (status : DepositionStatus) : yaml_file :=
  yaml_dump [("last_updated"%string, YTime now);
             ("iteration_number"%string, YInt (ds_iteration_number status));
             ("sequential_failures"%string, YInt (ds_sequential_failures status));
             ("total_failures"%string, YInt (ds_total_failures status));
             ("pickle_location"%string, YStr (ds_pickle_location status))].

(** [Deposition.read_status]; [None] for the file is a missing file, for
    which the method returns [None] (Deposition.py: a tuple of [None]s).
    Otherwise it returns the four values it passes to [Status] (returns as
    a tuple in Deposition.py); [status["pickle_location"]] is not converted,
    so the last one is the loaded scalar. *)
Definition Deposition_read_status (file : option yaml_file)
    : result (option (Z * Z * Z * yaml_scalar)) :=
  match file with
  | None => Ok None
  | Some f =>
    match yaml_safe_load f with
    | Raise e => Raise e
    | Timeout => Timeout
    | Ok status =>
      it <-? dict_lookup "iteration_number" status ;; it <-? py_int_of it ;;
      sf <-? dict_lookup "sequential_failures" status ;; sf <-? py_int_of sf ;;
      tf <-? dict_lookup "total_failures" status ;; tf <-? py_int_of tf ;;
      pl <-? dict_lookup "pickle_location" status ;;
      Ok (Some (it, sf, tf, pl))
    end
  end.

(** distributions.py: [GaussianVelocityDistribution.get_single_velocity]
    of an object built with [(gas_temperature, particle_mass, mean)]. The
    float division raises [ZeroDivisionError] for a zero mass and
    [math.sqrt] raises [ValueError] for a negative variance; the draw is
    [np.random.normal(loc=mean, scale=sigma)], taken with its variance. *)
Definition GaussianVelocityDistribution_get_single_velocity
    (gas_temperature particle_mass mean : Q) : M Q :=
  if Qeq_bool particle_mass 0 then raise ZeroDivisionError
  else let variance := BoltzmannConstant * gas_temperature / particle_mass in
       if Qlt_bool variance 0 then raise ValueError
       else fun k => Ok (draw_normal k mean variance, S k).

Definition GaussianVelocityDistribution_get_velocity
    (gas_temperature particle_mass mean : Q) : M vec3 :=
  vx <- GaussianVelocityDistribution_get_single_velocity gas_temperature particle_mass mean ;;
  vy <- GaussianVelocityDistribution_get_single_velocity gas_temperature particle_mass mean ;;
  vz <- GaussianVelocityDistribution_get_single_velocity gas_temperature particle_mass mean ;;
  ret (V3 vx vy vz).

(** physics.py: [get_centre_of_mass]. [Element(e)] raises [ValueError] for
    an unknown symbol and [zip] stops at the shorter list. The centre is
    [None] when numpy's result is not a 3-vector of numbers: [nan] or
    [inf] when the masses sum to zero, the scalar [0.0] when the zipped
    list is empty. *)
Definition get_centre_of_mass (coordinates : list vec3) (elements : list string)
    : result (option vec3 * list Q) :=
  atomic_masses <-? masses_of elements ;;
  let masses := map (fun m => AtomicMassUnit_kg * m) atomic_masses in
  let centre_of_mass_list :=
    map (fun '(mass, coordinate) => vscale mass coordinate) (combine masses coordinates) in
  let total := fold_left Qplus masses 0 in
  match centre_of_mass_list with
  | [] => Ok (None, masses)
  | _ => if Qeq_bool total 0 then Ok (None, masses)
         else Ok (Some (vscale (/ total) (vsum centre_of_mass_list)), masses)
  end.

(** [np.abs] of a vector. *)
Definition vabs (a : vec3) : vec3 := V3 (Qabs (x3 a)) (Qabs (y3 a)) (Qabs (z3 a)).

(** physics.py: [get_moment_of_inertia]; [None] when the centre of mass is
    not a vector of numbers ([nan] propagates) or the zipped list is empty
    ([np.atleast_2d([])] sums to an empty array). *)
Definition get_moment_of_inertia (coordinates : list vec3) (elements : list string)
    : result (option vec3) :=
  r <-? get_centre_of_mass coordinates elements ;;
  let '(centre_of_mass, masses) := r in
  match centre_of_mass with
  | None => Ok None
  | Some c =>
      let distances := map (fun coordinate => vsub coordinate c) coordinates in
      match combine masses distances with
      | [] => Ok None
      | products =>
          Ok (Some (vsum (map (fun '(mass, distance) => vscale mass (vabs distance)) products)))
      end
  end.

(** ** Concrete instances

    A cubic cell of side 10 with its origin at 0, and oracles for the
    library calls: constant normal draws, uniform draws at the midpoint of
    the interval, unit atomic masses, a parser for the numerals 0 and 1, a
    molecule file whose header count (1) disagrees with its two atom lines,
    an iteration that always fails validation, and YAML files that are the
    mappings themselves. *)
Definition cell10 : simulation_cell :=
  {| x_min := 0; x_max := 10; y_min := 0; y_max := 10; z_min := 0; z_max := 10;
     tilt_xy := 0; x_vector := V3 10 0 0; y_vector := V3 0 10 0; z_vector := V3 0 0 10 |}.

Definition const_normal (c : Q) : nat -> Q -> Q -> Q := fun _ _ _ => c.

Definition midpoint_uniform : nat -> Q -> Q -> Q := fun _ low high => (low + high) / 2.

Definition unit_mass : string -> option Q := fun _ => Some 1.

Definition small_int (s : string) : option Z :=
  if String.eqb s "0" then Some 0%Z else if String.eqb s "1" then Some 1%Z else None.

Definition small_float (s : string) : option Q :=
  if String.eqb s "0" then Some 0 else if String.eqb s "1" then Some 1 else None.

Definition malformed_files (name : string) : option (list string) :=
  if String.eqb name "molecule.xyz"
  then Some ["1"%string; "header count 1, two atom lines"%string; "H 0 0 0"%string;
             "H 1 1 1"%string]
  else None.

Definition example_settings (dtype : string) : deposition_settings :=
  {| num_deposited_per_iteration := 1; deposition_temperature_Kelvin := 300;
     deposition_type := dtype; minimum_deposition_velocity_metres_per_second := 1;
     deposition_height_Angstroms := 5; deposition_element := "H";
     diatomic_bond_length_Angstroms := 1; molecule_xyz_file := "molecule.xyz" |}.

Definition always_fail : nat -> DepositionStatus -> bool * string :=
  fun _ _ => (false, "failed.pickle"%string).

Definition identity_dump (d : yaml_document) : yaml_document := d.

Definition identity_load (d : yaml_document) : result yaml_document := Ok d.

Definition example_status : Status :=
  {| iteration_number := 4; sequential_failures := 1; total_failures := 2;
     pickle_location := "iteration_3.pickle"; last_updated := YTime 0 |}.

(** ** Lemmas on the model *)

Lemma Qlt_bool_iff (x y : Q) : Qlt_bool x y = true <-> x < y.
Proof.
  unfold Qlt_bool; rewrite negb_true_iff; split.
  - intro H; apply Qnot_le_lt; intro H'; apply Qle_bool_iff in H'; congruence.
  - intro H; destruct (Qle_bool y x) eqn:E; [|reflexivity].
    apply Qle_bool_iff in E; exfalso; apply (Qlt_not_le _ _ H E).
Qed.

Lemma Qlt_bool_false (x y : Q) : Qlt_bool x y = false <-> y <= x.
Proof.
  split.
  - intro H; apply Qnot_lt_le; intro H'; apply Qlt_bool_iff in H'; congruence.
  - intro H; destruct (Qlt_bool x y) eqn:E; [|reflexivity].
    apply Qlt_bool_iff in E; exfalso; apply (Qlt_not_le _ _ E H).
Qed.

Lemma fold_max_spec (t : list Q) (acc : Q) :
  let r := fold_left (fun m x => if Qlt_bool m x then x else m) t acc in
  In r (acc :: t) /\ acc <= r /\ (forall x, In x t -> x <= r).
Proof.
  revert acc; induction t as [|a t IH]; intro acc; simpl.
  - split; [left; reflexivity | split; [apply Qle_refl | tauto]].
  - set (acc' := if Qlt_bool acc a then a else acc).
    destruct (IH acc') as [Hin [Hle Hall]].
    assert (Hacc : acc <= acc' /\ a <= acc').
    { unfold acc'; destruct (Qlt_bool acc a) eqn:E.
      - apply Qlt_bool_iff in E; split; [apply Qlt_le_weak; exact E | apply Qle_refl].
      - apply Qlt_bool_false in E; split; [apply Qle_refl | exact E]. }
    destruct Hacc as [H1 H2].
    split; [|split].
    + destruct Hin as [Hin|Hin]; [|right; right; exact Hin].
      unfold acc' in Hin; destruct (Qlt_bool acc a); [right; left|left]; exact Hin.
    + apply Qle_trans with acc'; assumption.
    + intros x [Hx|Hx]; [subst x; apply Qle_trans with acc'; assumption | apply Hall; exact Hx].
Qed.

Lemma fold_min_spec (t : list Q) (acc : Q) :
  let r := fold_left (fun m x => if Qlt_bool x m then x else m) t acc in
  In r (acc :: t) /\ r <= acc /\ (forall x, In x t -> r <= x).
Proof.
  revert acc; induction t as [|a t IH]; intro acc; simpl.
  - split; [left; reflexivity | split; [apply Qle_refl | tauto]].
  - set (acc' := if Qlt_bool a acc then a else acc).
    destruct (IH acc') as [Hin [Hle Hall]].
    assert (Hacc : acc' <= acc /\ acc' <= a).
    { unfold acc'; destruct (Qlt_bool a acc) eqn:E.
      - apply Qlt_bool_iff in E; split; [apply Qlt_le_weak; exact E | apply Qle_refl].
      - apply Qlt_bool_false in E; split; [apply Qle_refl | exact E]. }
    destruct Hacc as [H1 H2].
    split; [|split].
    + destruct Hin as [Hin|Hin]; [|right; right; exact Hin].
      unfold acc' in Hin; destruct (Qlt_bool a acc); [right; left|left]; exact Hin.
    + apply Qle_trans with acc'; assumption.
    + intros x [Hx|Hx]; [subst x; apply Qle_trans with acc'; assumption | apply Hall; exact Hx].
Qed.

Lemma py_max_ok (l : list Q) :
  l <> [] -> exists m, py_max l = Ok m /\ In m l /\ (forall x, In x l -> x <= m).
Proof.
  destruct l as [|h t]; [congruence|]; intros _.
  destruct (fold_max_spec t h) as [Hin [Hle Hall]].
  eexists; split; [reflexivity|]; split; [exact Hin|].
  intros x [Hx|Hx]; [subst x; exact Hle | apply Hall; exact Hx].
Qed.

Lemma py_min_ok (l : list Q) :
  l <> [] -> exists m, py_min l = Ok m /\ In m l /\ (forall x, In x l -> m <= x).
Proof.
  destruct l as [|h t]; [congruence|]; intros _.
  destruct (fold_min_spec t h) as [Hin [Hle Hall]].
  eexists; split; [reflexivity|]; split; [exact Hin|].
  intros x [Hx|Hx]; [subst x; exact Hle | apply Hall; exact Hx].
Qed.

(** The xy images with one copy, written out. *)
Lemma periodic_images_xy_one (cell : simulation_cell) (coordinates : list vec3) :
  generate_periodic_images_xy cell coordinates 1 =
  coordinates ++
  concat (map (fun '(i, j) => map (fun p => vadd p (xy_shift cell i j)) coordinates)
              [(-1, -1); (-1, 0); (-1, 1); (0, -1); (0, 1); (1, -1); (1, 0); (1, 1)]%Z).
Proof.
  unfold generate_periodic_images_xy, ndindex; simpl.
  rewrite app_nil_r, <- !app_assoc; reflexivity.
Qed.

(** A filter count that contains the entry at position [i]. *)
Lemma filter_length_zero {A} (f : A -> bool) (l : list A) (d : A) :
  length (filter f l) = 0%nat <-> (forall j, (j < length l)%nat -> f (nth j l d) = false).
Proof.
  induction l as [|a t IH]; simpl.
  - split; [intros _ j Hj; lia | reflexivity].
  - destruct (f a) eqn:Ea; simpl.
    + split; [discriminate | intro H; specialize (H 0%nat ltac:(lia)); simpl in H; congruence].
    + rewrite IH; split.
      * intros H [|j] Hj; [exact Ea | apply H; lia].
      * intros H j Hj; apply (H (S j)); lia.
Qed.

Lemma filter_count_self {A} (f : A -> bool) (l : list A) (d : A) (i : nat) :
  (i < length l)%nat -> f (nth i l d) = true ->
  (1 <= length (filter f l))%nat /\
  ((length (filter f l) <= 1)%nat <->
   (forall j, (j < length l)%nat -> j <> i -> f (nth j l d) = false)).
Proof.
  revert i; induction l as [|a t IH]; intros i Hi Hf; simpl in *; [lia|].
  destruct i as [|i].
  - rewrite Hf; simpl; split; [lia|].
    assert (Hz := filter_length_zero f t d).
    split.
    + intros H j Hj Hne; destruct j as [|j]; [congruence|].
      apply Hz; [lia | lia].
    + intro H; enough (length (filter f t) = 0%nat) by lia.
      apply Hz; intros j Hj; apply (H (S j)); lia.
  - destruct (IH i ltac:(lia) Hf) as [H1 H2].
    destruct (f a) eqn:Ea; simpl.
    + split; [lia|]; split; [lia|].
      intro H; specialize (H 0%nat ltac:(lia) ltac:(lia)); simpl in H; congruence.
    + split; [exact H1|]; rewrite H2; split.
      * intros H [|j] Hj Hne; [exact Ea | apply H; lia].
      * intros H j Hj Hne; apply (H (S j)); lia.
Qed.

Lemma norm_lt_self (r : vec3) (c : Q) : 0 < c -> norm_lt (vsub r r) c = true.
Proof.
  intro Hc; unfold norm_lt; apply andb_true_iff; split; apply Qlt_bool_iff; [exact Hc|].
  assert (H0 : dot (vsub r r) (vsub r r) == 0) by (unfold dot, vsub; simpl; ring).
  rewrite H0; apply Qmult_lt_0_compat; exact Hc.
Qed.

Lemma wrap_length (cell : simulation_cell) (coordinates : list vec3) (pct : Q) :
  length (wrap_periodic_coordinates_in_z cell coordinates pct) = length coordinates.
Proof. unfold wrap_periodic_coordinates_in_z; apply length_map. Qed.

Lemma nth_map_default {A B} (f : A -> B) (l : list A) (i : nat) (d : A) (db : B) :
  (i < length l)%nat -> nth i (map f l) db = f (nth i l d).
Proof.
  intro Hi; rewrite nth_indep with (d' := f d) by (rewrite length_map; exact Hi).
  apply map_nth.
Qed.

(** The neighbour count of the [i]-th particle, with the self-count. *)
Lemma neighbour_count_nth (cell : simulation_cell) (coordinates : list vec3) (c : Q) (i : nat) :
  0 < c -> (i < length coordinates)%nat ->
  let w := wrap_periodic_coordinates_in_z cell coordinates 80 in
  let imgs := generate_periodic_images_xy cell w 1 in
  let n := nth i (generate_neighbour_list cell coordinates c) 0%nat in
  (1 <= n)%nat /\
  ((n <= 1)%nat <->
   (forall j, (j < length imgs)%nat -> j <> i ->
      norm_lt (vsub (nth i w (V3 0 0 0)) (nth j imgs (V3 0 0 0))) c = false)).
Proof.
  intros Hc Hi w imgs n.
  assert (Hw : (i < length w)%nat) by (unfold w; rewrite wrap_length; exact Hi).
  assert (Himgs : imgs = w ++ skipn (length w) imgs).
  { unfold imgs; rewrite periodic_images_xy_one; rewrite skipn_app, Nat.sub_diag, skipn_all.
    simpl; reflexivity. }
  assert (Hn : n = length (filter (fun atom => norm_lt (vsub (nth i w (V3 0 0 0)) atom) c) imgs)).
  { unfold n, generate_neighbour_list; fold w; fold imgs.
    cbv zeta; fold w; fold imgs.
    rewrite (nth_map_default _ _ _ (V3 0 0 0)) by exact Hw; reflexivity. }
  assert (Hsame : nth i imgs (V3 0 0 0) = nth i w (V3 0 0 0)).
  { rewrite Himgs, app_nth1 by exact Hw; reflexivity. }
  assert (Hlen : (i < length imgs)%nat).
  { rewrite Himgs at 1; rewrite length_app; lia. }
  rewrite Hn;
  apply (filter_count_self (fun atom => norm_lt (vsub (nth i w (V3 0 0 0)) atom) c)
                           imgs (V3 0 0 0) i); [exact Hlen|].
  rewrite Hsame; apply norm_lt_self; exact Hc.
Qed.

(** ** Claims on structural_analysis.py *)

(** C6: z-wrapping subtracts [z_vector] from exactly the coordinates whose
    z-component exceeds 80% of the cell's z-extent and keeps the others, in
    order; the xy images with one copy are the input followed by the input
    shifted by [i*x_vector + j*y_vector] for each of the eight pairs
    [(i, j)] of [{-1,0,1}^2] other than [(0, 0)], 9 copies in all. *)
Theorem wrap_and_periodic_images_xy (cell : simulation_cell) (coordinates : list vec3) :
  let cutoff := (z_max cell - z_min cell) * (80 / 100) in
  let w := wrap_periodic_coordinates_in_z cell coordinates 80 in
  let offsets := [(-1, -1); (-1, 0); (-1, 1); (0, -1); (0, 1); (1, -1); (1, 0); (1, 1)]%Z in
  length w = length coordinates /\
  (forall i p, nth_error coordinates i = Some p ->
     (cutoff < z3 p -> nth_error w i = Some (vsub p (z_vector cell))) /\
     (z3 p <= cutoff -> nth_error w i = Some p)) /\
  generate_periodic_images_xy cell coordinates 1 =
    coordinates ++
    concat (map (fun '(i, j) =>
                   map (fun p => vadd p (vadd (vscale (inject_Z i) (x_vector cell))
                                              (vscale (inject_Z j) (y_vector cell))))
                       coordinates) offsets) /\
  length (generate_periodic_images_xy cell coordinates 1) = (9 * length coordinates)%nat /\
  (forall i j, In (i, j) offsets <->
     ((-1 <= i <= 1) /\ (-1 <= j <= 1) /\ (i, j) <> (0, 0))%Z) /\
  NoDup offsets.
Proof.
  intros cutoff w offsets.
  split; [apply wrap_length|].
  split; [|split; [|split; [|split]]].
  - intros i p Hp; unfold w, wrap_periodic_coordinates_in_z.
    rewrite nth_error_map, Hp; simpl; fold cutoff; split; intro H.
    + apply Qlt_bool_iff in H; rewrite H; reflexivity.
    + apply Qlt_bool_false in H; rewrite H; reflexivity.
  - rewrite periodic_images_xy_one; reflexivity.
  - rewrite periodic_images_xy_one; simpl.
    rewrite !length_app, !length_map; simpl; lia.
  - intros i j; unfold offsets; simpl; split.
    + intros H; repeat destruct H as [H|H]; try contradiction;
        inversion H; subst; repeat split; try lia; discriminate.
    + intros [Hi [Hj Hne]].
      assert (Ci : i = (-1)%Z \/ i = 0%Z \/ i = 1%Z) by lia.
      assert (Cj : j = (-1)%Z \/ j = 0%Z \/ j = 1%Z) by lia.
      destruct Ci as [ -> | [ -> | -> ] ]; destruct Cj as [ -> | [ -> | -> ] ]; simpl; tauto.
  - unfold offsets; repeat constructor; simpl; intuition discriminate.
Qed.

(** C8 (as amended): when some particle lies strictly below 80% of the
    cell's z-extent, the surface height is the largest z-coordinate among
    those particles; when none does, [max] of the empty list raises
    [ValueError]. *)
Theorem get_surface_height_spec (cell : simulation_cell) (coordinates : list vec3) :
  let cutoff := (z_max cell - z_min cell) * (80 / 100) in
  ((exists p, In p coordinates /\ z3 p < cutoff) ->
   exists m, get_surface_height cell coordinates 80 = Ok m /\
     (exists p, In p coordinates /\ z3 p < cutoff /\ m = z3 p) /\
     (forall p, In p coordinates -> z3 p < cutoff -> z3 p <= m)) /\
  ((forall p, In p coordinates -> cutoff <= z3 p) ->
   get_surface_height cell coordinates 80 = Raise ValueError).
Proof.
  intro cutoff; unfold get_surface_height; fold cutoff; split.
  - intros [p [Hp Hz]].
    destruct (py_max_ok (map z3 (filter (fun xyz => Qlt_bool (z3 xyz) cutoff) coordinates)))
      as [m [Hm [Hin Hall]]].
    { intro Hnil; apply map_eq_nil in Hnil.
      assert (In p (filter (fun xyz => Qlt_bool (z3 xyz) cutoff) coordinates)).
      { apply filter_In; split; [exact Hp | apply Qlt_bool_iff; exact Hz]. }
      rewrite Hnil in H; contradiction. }
    exists m; split; [exact Hm|]; split.
    + apply in_map_iff in Hin; destruct Hin as [q [Hq Hqin]].
      apply filter_In in Hqin; destruct Hqin as [Hq1 Hq2].
      exists q; split; [exact Hq1|]; split; [apply Qlt_bool_iff; exact Hq2 | symmetry; exact Hq].
    + intros q Hq Hqz; apply Hall; apply in_map; apply filter_In; split;
        [exact Hq | apply Qlt_bool_iff; exact Hqz].
  - intro Hall.
    assert (Hnil : filter (fun xyz => Qlt_bool (z3 xyz) cutoff) coordinates = []).
    { destruct (filter (fun xyz => Qlt_bool (z3 xyz) cutoff) coordinates) as [|q l] eqn:E;
        [reflexivity|].
      assert (Hq : In q (filter (fun xyz => Qlt_bool (z3 xyz) cutoff) coordinates))
        by (rewrite E; left; reflexivity).
      apply filter_In in Hq; destruct Hq as [Hq1 Hq2].
      apply Qlt_bool_iff in Hq2; exfalso; apply (Qlt_not_le _ _ Hq2 (Hall q Hq1)). }
    rewrite Hnil; reflexivity.
Qed.

(** C10: with a positive cut-off every neighbour count includes the
    particle itself, so each is at least 1, and a count is at most 1 (the
    monatomic threshold) exactly when no other entry of the image list,
    other atom or periodic image, lies within the cut-off. *)
Theorem neighbour_list_counts_self (cell : simulation_cell) (coordinates : list vec3)
    (bonding_distance_cutoff : Q) :
  0 < bonding_distance_cutoff ->
  let nl := generate_neighbour_list cell coordinates bonding_distance_cutoff in
  let w := wrap_periodic_coordinates_in_z cell coordinates 80 in
  let imgs := generate_periodic_images_xy cell w 1 in
  length nl = length coordinates /\
  (forall n, In n nl -> (1 <= n)%nat) /\
  (forall i, (i < length coordinates)%nat ->
     ((nth i nl 0 <= 1)%nat <->
      (forall j, (j < length imgs)%nat -> j <> i ->
         norm_lt (vsub (nth i w (V3 0 0 0)) (nth j imgs (V3 0 0 0)))
                 bonding_distance_cutoff = false))).
Proof.
  intros Hc nl w imgs.
  assert (Hlen : length nl = length coordinates).
  { unfold nl, generate_neighbour_list; rewrite length_map; apply wrap_length. }
  split; [exact Hlen|]; split.
  - intros n Hn.
    destruct (In_nth nl n 0%nat Hn) as [i [Hi Hni]].
    rewrite Hlen in Hi.
    destruct (neighbour_count_nth cell coordinates bonding_distance_cutoff i Hc Hi) as [H1 _].
    fold nl in H1; rewrite Hni in H1; exact H1.
  - intros i Hi.
    exact (proj2 (neighbour_count_nth cell coordinates bonding_distance_cutoff i Hc Hi)).
Qed.

(** C4 (as amended): the minimum-neighbours check raises [ValueError]
    exactly for an unrecognised deposition type or an empty coordinate list
    (the numpy broadcast in [generate_periodic_images_xy]); for a recognised
    type and a non-empty list it raises [RuntimeWarning] exactly when some
    neighbour count is at most the type's minimum (1 monatomic, 2 diatomic,
    0 molecule) and passes otherwise. With a positive cut-off, a single particle with no other
    atom or periodic image within the cut-off fails for monatomic and
    diatomic deposition but passes for molecule deposition, since its
    count is 1 (itself). *)
Theorem check_min_neighbours_spec (cell : simulation_cell) (coordinates : list vec3)
    (deposition_type : string) (bonding_distance_cutoff : Q) :
  let nl := generate_neighbour_list cell coordinates bonding_distance_cutoff in
  let check := check_min_neighbours cell coordinates deposition_type bonding_distance_cutoff in
  min_neighbours_for "monatomic"%string = Some 1%nat /\
  min_neighbours_for "diatomic"%string = Some 2%nat /\
  min_neighbours_for "molecule"%string = Some 0%nat /\
  (min_neighbours_for deposition_type = None <->
   deposition_type <> "monatomic"%string /\ deposition_type <> "diatomic"%string /\
   deposition_type <> "molecule"%string) /\
  (check = Raise ValueError <->
   min_neighbours_for deposition_type = None \/ coordinates = []) /\
  (forall mn, min_neighbours_for deposition_type = Some mn -> coordinates <> [] ->
     (check = Raise RuntimeWarning <-> exists n, In n nl /\ (n <= mn)%nat) /\
     (check = Ok tt <-> forall n, In n nl -> (mn < n)%nat)) /\
  (forall p, 0 < bonding_distance_cutoff ->
     let w := wrap_periodic_coordinates_in_z cell [p] 80 in
     let imgs := generate_periodic_images_xy cell w 1 in
     (forall j, (0 < j < length imgs)%nat ->
        norm_lt (vsub (nth 0 w (V3 0 0 0)) (nth j imgs (V3 0 0 0)))
                bonding_distance_cutoff = false) ->
     ((deposition_type = "monatomic"%string \/ deposition_type = "diatomic"%string) ->
      check_min_neighbours cell [p] deposition_type bonding_distance_cutoff
        = Raise RuntimeWarning) /\
     (deposition_type = "molecule"%string ->
      check_min_neighbours cell [p] deposition_type bonding_distance_cutoff = Ok tt)).
Proof using.
  intros nl check.
  split; [reflexivity|]; split; [reflexivity|]; split; [reflexivity|].
  split.
  { unfold min_neighbours_for; split.
    - destruct (String.eqb_spec deposition_type "monatomic"%string); [discriminate|].
      destruct (String.eqb_spec deposition_type "diatomic"%string); [discriminate|].
      destruct (String.eqb_spec deposition_type "molecule"%string); [discriminate|].
      intros _; split; [|split]; assumption.
    - intros [H1 [H2 H3]].
      apply String.eqb_neq in H1, H2, H3; rewrite H1, H2, H3; reflexivity. }
  split.
  { unfold check, check_min_neighbours.
    destruct (min_neighbours_for deposition_type);
      [|split; intros; [left; reflexivity | reflexivity]].
    destruct coordinates as [|c cs]; [split; intros; [right; reflexivity | reflexivity]|].
    split; [|intros [H|H]; discriminate].
    destruct (existsb _ _); discriminate. }
  split.
  { intros mn Hmn Hne; unfold check, check_min_neighbours; rewrite Hmn.
    destruct coordinates as [|c cs]; [contradiction|]; fold nl.
    destruct (existsb (fun n => Nat.leb n mn) nl) eqn:E.
    - apply existsb_exists in E; destruct E as [n [Hn Hle]].
      apply Nat.leb_le in Hle.
      split; [split; [intros _; exists n; split; assumption | reflexivity]|].
      split; [discriminate|]; intro H; specialize (H n Hn); lia.
    - split; [split; [discriminate|] | split; [intros _|reflexivity]].
      + intros [n [Hn Hle]].
        assert (existsb (fun n => Nat.leb n mn) nl = true)
          by (apply existsb_exists; exists n; split; [exact Hn | apply Nat.leb_le; exact Hle]).
        congruence.
      + intros n Hn; destruct (Nat.leb n mn) eqn:En.
        * assert (existsb (fun n => Nat.leb n mn) nl = true)
            by (apply existsb_exists; exists n; split; assumption).
          congruence.
        * apply Nat.leb_gt in En; exact En. }
  intros p Hc w imgs Hiso.
  destruct (neighbour_count_nth cell [p] bonding_distance_cutoff 0 Hc ltac:(simpl; lia))
    as [H1 H2].
  fold w in H2; fold imgs in H2.
  assert (Hle : (nth 0 (generate_neighbour_list cell [p] bonding_distance_cutoff) 0 <= 1)%nat).
  { apply H2; intros j Hj Hne; apply Hiso; lia. }
  assert (Hnl : generate_neighbour_list cell [p] bonding_distance_cutoff = [1%nat]).
  { destruct (generate_neighbour_list cell [p] bonding_distance_cutoff) as [|n [|n' l]] eqn:E.
    - unfold generate_neighbour_list in E; simpl in E; discriminate.
    - simpl in H1, Hle; f_equal; lia.
    - unfold generate_neighbour_list in E; simpl in E; discriminate. }
  unfold check_min_neighbours; rewrite Hnl; split.
  - intros [-> | ->]; reflexivity.
  - intros ->; reflexivity.
Qed.

(** C5 (as amended): for a non-empty coordinate list the interface check
    raises [RuntimeWarning] exactly when some particle of the deposited
    element has a wrapped z-coordinate within [bonding_distance_cutoff]
    (inclusive) of the minimum wrapped z-coordinate, and passes otherwise;
    an empty coordinate list raises [ValueError] ([min] of an empty list);
    with a non-negative cut-off a deposited particle at the minimum
    (distance 0) always fails. *)
Theorem check_bonding_at_image_spec (cell : simulation_cell) (coordinates : list vec3)
    (elements : list string) (deposited_element : string) (bonding_distance_cutoff : Q) :
  let w := wrap_periodic_coordinates_in_z cell coordinates 80 in
  let check := check_bonding_at_image cell coordinates elements deposited_element
                 bonding_distance_cutoff in
  (coordinates = [] -> check = Raise ValueError) /\
  (coordinates <> [] ->
   exists min_z, In min_z (map z3 w) /\ (forall q, In q w -> min_z <= z3 q) /\
     (check = Raise RuntimeWarning <->
      exists e p, In (e, p) (combine elements w) /\ e = deposited_element /\
                  Qabs (z3 p - min_z) <= bonding_distance_cutoff) /\
     (check = Ok tt <->
      ~ exists e p, In (e, p) (combine elements w) /\ e = deposited_element /\
                    Qabs (z3 p - min_z) <= bonding_distance_cutoff)) /\
  (0 <= bonding_distance_cutoff -> forall p,
     In (deposited_element, p) (combine elements w) ->
     (forall q, In q w -> z3 p <= z3 q) -> check = Raise RuntimeWarning).
Proof.
  intros w check.
  assert (Hmain : coordinates <> [] ->
   exists min_z, In min_z (map z3 w) /\ (forall q, In q w -> min_z <= z3 q) /\
     (check = Raise RuntimeWarning <->
      exists e p, In (e, p) (combine elements w) /\ e = deposited_element /\
                  Qabs (z3 p - min_z) <= bonding_distance_cutoff) /\
     (check = Ok tt <->
      ~ exists e p, In (e, p) (combine elements w) /\ e = deposited_element /\
                    Qabs (z3 p - min_z) <= bonding_distance_cutoff)).
  { intro Hne.
    destruct (py_min_ok (map z3 w)) as [mz [Hmz [Hin Hall]]].
    { unfold w, wrap_periodic_coordinates_in_z; destruct coordinates; [congruence|]; discriminate. }
    exists mz; split; [exact Hin|]; split.
    { intros q Hq; apply Hall; apply in_map; exact Hq. }
    set (P := exists e p, In (e, p) (combine elements w) /\ e = deposited_element /\
                          Qabs (z3 p - mz) <= bonding_distance_cutoff).
    assert (Hex : existsb (fun d => Qle_bool d bonding_distance_cutoff)
        (map (fun z => Qabs (z - mz))
           (map (fun '(_, xyz) => z3 xyz)
              (filter (fun '(element, _) => String.eqb element deposited_element)
                 (combine elements w)))) = true <-> P).
    { rewrite existsb_exists; split.
      - intros [d [Hd Hle]].
        apply in_map_iff in Hd; destruct Hd as [z [Hz Hzin]].
        apply in_map_iff in Hzin; destruct Hzin as [[e p] [Hp Hpin]].
        apply filter_In in Hpin; destruct Hpin as [Hpin He].
        apply String.eqb_eq in He.
        exists e, p; split; [exact Hpin|]; split; [exact He|].
        apply Qle_bool_iff in Hle; subst d z; exact Hle.
      - intros [e [p [Hpin [He Hle]]]].
        exists (Qabs (z3 p - mz)); split; [|apply Qle_bool_iff; exact Hle].
        apply (in_map (fun z => Qabs (z - mz))).
        apply (in_map (fun '(_, xyz) => z3 xyz) _ (e, p)).
        apply filter_In; split; [exact Hpin | apply String.eqb_eq; exact He]. }
    unfold check, check_bonding_at_image; fold w; rewrite Hmz; cbv zeta.
    destruct (existsb _ _) eqn:E.
    - split; [split; [intros _; apply Hex; reflexivity | reflexivity]|].
      split; [discriminate|]; intro H; exfalso; apply H; apply Hex; reflexivity.
    - split; [split; [discriminate|]|split; [intros _|reflexivity]].
      + intro H; apply Hex in H; congruence.
      + intro H; apply Hex in H; congruence. }
  split; [|split; [exact Hmain|]].
  - intros ->; reflexivity.
  - intros Hc p Hp Hmin.
    assert (Hne : coordinates <> []).
    { intros ->; unfold w in Hp; simpl in Hp; destruct elements; contradiction. }
    destruct (Hmain Hne) as [mz [Hin [Hall [Hiff _]]]].
    apply Hiff; exists deposited_element, p; split; [exact Hp|]; split; [reflexivity|].
    apply in_map_iff in Hin; destruct Hin as [q [Hq Hqin]].
    assert (Hpw : In p w) by (apply in_combine_r in Hp; exact Hp).
    assert (Heq : z3 p - mz == 0).
    { assert (mz <= z3 p) by (apply Hall; exact Hpw).
      assert (z3 p <= mz) by (rewrite <- Hq; apply Hmin; exact Hqin).
      assert (z3 p == mz) by (apply Qle_antisym; assumption).
      rewrite H1; ring. }
    rewrite Heq; simpl; exact Hc.
Qed.

(** ** Lemmas on the random-state monad *)

Lemma bind_Ok_inv {A B} (m : M A) (f : A -> M B) (k : nat) (b : B) (k' : nat) :
  bind m f k = Ok (b, k') -> exists a k1, m k = Ok (a, k1) /\ f a k1 = Ok (b, k').
Proof.
  unfold bind; destruct (m k) as [[a k1]| |]; try discriminate.
  intro H; exists a, k1; split; [reflexivity | exact H].
Qed.

Lemma lift_Ok_inv {A} (r : result A) (k : nat) (a : A) (k' : nat) :
  lift r k = Ok (a, k') -> r = Ok a /\ k' = k.
Proof.
  unfold lift; destruct r as [a'| |]; try discriminate.
  intro H; inversion H; subst; split; reflexivity.
Qed.

(** Neither sampler step ever runs out of fuel. *)
Lemma velocity_from_normal_distribution_cases (T m : Q) (k : nat) :
  (exists d k', velocity_from_normal_distribution T m k = Ok (d, k')) \/
  velocity_from_normal_distribution T m k = Raise ValueError.
Proof.
  unfold velocity_from_normal_distribution.
  destruct (Qlt_bool 0 m); [|left; exists 0, k; reflexivity].
  destruct (Qlt_bool _ 0); [right; reflexivity|].
  left; eexists; eexists; reflexivity.
Qed.

Lemma random_velocity_loop_ok (T m minv vx vy : Q) (n k : nat) (v : vec3) (k' : nat) :
  random_velocity_loop T m minv vx vy n k = Ok (v, k') ->
  x3 v = vx /\ y3 v = vy /\ exists d, z3 v = - Qabs d /\ minv < Qabs d.
Proof.
  revert k; induction n as [|n IH]; intros k H; simpl in H; [discriminate|].
  apply bind_Ok_inv in H; destruct H as [d [k1 [_ H]]].
  destruct (Qlt_bool minv (Qabs d)) eqn:E.
  - inversion H; subst; simpl; split; [reflexivity|]; split; [reflexivity|].
    exists d; split; [reflexivity | apply Qlt_bool_iff; exact E].
  - exact (IH k1 H).
Qed.

Lemma random_velocity_loop_cases (T m minv vx vy : Q) (n k : nat) :
  (exists v k', random_velocity_loop T m minv vx vy n k = Ok (v, k')) \/
  random_velocity_loop T m minv vx vy n k = Raise ValueError.
Proof.
  revert k; induction n as [|n IH]; intro k; simpl; [right; reflexivity|].
  unfold bind.
  destruct (velocity_from_normal_distribution_cases T m k) as [[d [k1 E]]|E]; rewrite E;
    [|right; reflexivity].
  destruct (Qlt_bool minv (Qabs d)); [left; eexists; eexists; reflexivity | apply IH].
Qed.

Lemma random_velocity_loop_exhausted (T m minv vx vy : Q) (n k : nat) :
  0 < m -> 0 <= BoltzmannConstant * T / m ->
  (forall i, (i < n)%nat ->
     ~ minv < Qabs (draw_normal (k + i) 0 (BoltzmannConstant * T / m))) ->
  random_velocity_loop T m minv vx vy n k = Raise ValueError.
Proof.
  intros Hm Hvar; revert k; induction n as [|n IH]; intros k Hrej; simpl; [reflexivity|].
  unfold bind, velocity_from_normal_distribution.
  assert (E1 : Qlt_bool 0 m = true) by (apply Qlt_bool_iff; exact Hm).
  assert (E2 : Qlt_bool (BoltzmannConstant * T / m) 0 = false)
    by (apply Qlt_bool_false; exact Hvar).
  rewrite E1, E2; unfold normal_distribution.
  assert (E3 : Qlt_bool minv (Qabs (draw_normal k 0 (BoltzmannConstant * T / m))) = false).
  { destruct (Qlt_bool minv (Qabs (draw_normal k 0 (BoltzmannConstant * T / m)))) eqn:E;
      [|reflexivity].
    apply Qlt_bool_iff in E; exfalso; apply (Hrej 0%nat ltac:(lia)).
    rewrite Nat.add_0_r; exact E. }
  rewrite E3; apply IH.
  intros i Hi; replace (S k + i)%nat with (k + S i)%nat by lia; apply Hrej; lia.
Qed.

Lemma random_velocity_loop_zero_mass (T m minv vx vy : Q) (n k : nat) :
  m <= 0 -> 0 <= minv -> random_velocity_loop T m minv vx vy n k = Raise ValueError.
Proof.
  intros Hm Hmin; revert k; induction n as [|n IH]; intro k; simpl; [reflexivity|].
  unfold bind, velocity_from_normal_distribution.
  assert (E1 : Qlt_bool 0 m = false) by (apply Qlt_bool_false; exact Hm).
  rewrite E1; unfold ret.
  assert (E2 : Qlt_bool minv (Qabs 0) = false) by (apply Qlt_bool_false; exact Hmin).
  rewrite E2; apply IH.
Qed.

(** ** Claims on the samplers *)

(** C1 (as amended): a velocity returned by [random_velocity] (with its
    default cap of 10000 attempts) has [|v_z| > minimum_velocity] and
    [v_z <= 0], strictly negative whenever [minimum_velocity >= 0] (the
    settings schema requires it strictly positive); the sampler either
    returns or raises [ValueError], and it raises when none of the 10000
    z-draws (after the x and y draws) exceeds the minimum in magnitude, or
    when the particle mass is not positive and [minimum_velocity >= 0]. *)
Theorem random_velocity_spec (gas_temperature particle_mass minimum_velocity : Q) (k : nat) :
  let r := random_velocity gas_temperature particle_mass minimum_velocity 10000 k in
  let variance := BoltzmannConstant * gas_temperature / particle_mass in
  (forall v k', r = Ok (v, k') ->
     minimum_velocity < Qabs (z3 v) /\ z3 v <= 0 /\
     (0 <= minimum_velocity -> z3 v < 0)) /\
  ((exists v k', r = Ok (v, k')) \/ r = Raise ValueError) /\
  (0 < particle_mass -> 0 <= variance ->
   (forall i, (i < 10000)%nat ->
      ~ minimum_velocity < Qabs (draw_normal (k + 2 + i) 0 variance)) ->
   r = Raise ValueError) /\
  (particle_mass <= 0 -> 0 <= minimum_velocity -> r = Raise ValueError).
Proof.
  intros r variance.
  split; [|split; [|split]].
  - intros v k' H; unfold r, random_velocity in H.
    apply bind_Ok_inv in H; destruct H as [vx [k1 [_ H]]].
    apply bind_Ok_inv in H; destruct H as [vy [k2 [_ H]]].
    apply random_velocity_loop_ok in H; destruct H as [_ [_ [d [Hz Hd]]]].
    rewrite Hz, Qabs_opp.
    replace (Qabs (Qabs d)) with (Qabs d)
      by (destruct d as [dn dd]; simpl; rewrite Z.abs_idemp; reflexivity).
    assert (Hd0 : 0 <= Qabs d) by apply Qabs_nonneg.
    split; [exact Hd|]; split.
    + apply (Qopp_le_compat 0 (Qabs d)) in Hd0; exact Hd0.
    + intro Hmin.
      assert (Hpos : 0 < Qabs d) by (apply Qle_lt_trans with minimum_velocity; assumption).
      apply (Qopp_lt_compat 0 (Qabs d)) in Hpos; exact Hpos.
  - unfold r, random_velocity, bind.
    destruct (velocity_from_normal_distribution_cases gas_temperature particle_mass k)
      as [[vx [k1 E1]]|E1]; rewrite E1; [|right; reflexivity].
    destruct (velocity_from_normal_distribution_cases gas_temperature particle_mass k1)
      as [[vy [k2 E2]]|E2]; rewrite E2; [|right; reflexivity].
    apply random_velocity_loop_cases.
  - intros Hm Hvar Hrej; unfold r, random_velocity, bind, velocity_from_normal_distribution.
    assert (E1 : Qlt_bool 0 particle_mass = true) by (apply Qlt_bool_iff; exact Hm).
    assert (E2 : Qlt_bool variance 0 = false) by (apply Qlt_bool_false; exact Hvar).
    unfold variance in E2; rewrite E1, E2; unfold normal_distribution.
    fold (velocity_from_normal_distribution gas_temperature particle_mass).
    apply random_velocity_loop_exhausted; [exact Hm | exact Hvar |].
    intros i Hi; replace (S (S k) + i)%nat with (k + 2 + i)%nat by lia; apply Hrej; exact Hi.
  - intros Hm Hmin; unfold r, random_velocity, bind, velocity_from_normal_distribution.
    assert (E1 : Qlt_bool 0 particle_mass = false) by (apply Qlt_bool_false; exact Hm).
    rewrite E1; unfold ret.
    fold (velocity_from_normal_distribution gas_temperature particle_mass).
    apply random_velocity_loop_zero_mass; assumption.
Qed.

Lemma contains_point_degenerate (point : Q * Q) :
  contains_point [(0, 0); (0, 0); (0, 0); (0, 0)] point = false.
Proof.
  destruct point as [tx ty]; unfold contains_point, polygon_edges, edge_crosses; simpl.
  destruct (Qle_bool ty 0); reflexivity.
Qed.

Lemma get_extents_degenerate :
  get_extents [(0, 0); (0, 0); (0, 0); (0, 0)] = Ok (0, 0, 0, 0).
Proof. reflexivity. Qed.

Lemma get_extents_no_timeout (polygon : list (Q * Q)) : get_extents polygon <> Timeout.
Proof.
  unfold get_extents.
  destruct (py_min (map fst polygon)), (py_max (map fst polygon)),
    (py_min (map snd polygon)), (py_max (map snd polygon)); discriminate.
Qed.

Lemma uniform_position_loop_no_timeout (polygon : list (Q * Q)) (z xmin xmax ymin ymax : Q)
    (n k : nat) :
  uniform_position_loop polygon z xmin xmax ymin ymax n k <> Timeout.
Proof.
  revert k; induction n as [|n IH]; intro k; simpl; [discriminate|].
  unfold bind, uniform.
  destruct (contains_point polygon _); [discriminate | apply IH].
Qed.

Lemma uniform_position_loop_rejects_all (z xmin xmax ymin ymax : Q) (n k : nat) :
  uniform_position_loop [(0, 0); (0, 0); (0, 0); (0, 0)] z xmin xmax ymin ymax n k
  = Raise RuntimeError.
Proof.
  revert k; induction n as [|n IH]; intro k; simpl; [reflexivity|].
  unfold bind, uniform; rewrite contains_point_degenerate; apply IH.
Qed.

Lemma random_point_loop_rejects_all (xmin xmax ymin ymax : Q) (fuel k : nat) :
  random_point_loop [(0, 0); (0, 0); (0, 0); (0, 0)] xmin xmax ymin ymax fuel k = Timeout.
Proof.
  revert k; induction fuel as [|f IH]; intro k; simpl; [reflexivity|].
  unfold bind, uniform; rewrite contains_point_degenerate; apply IH.
Qed.

(** C3 (a divergence between two sampling paths): the capped sampler
    [UniformPositionDistribution.get_position] always terminates (it never
    runs out of fuel, whatever the polygon and the draws) and raises
    [RuntimeError] on the zero-area polygon with four vertices at the
    origin; but [maths.get_random_point_in_polygon], which the injector
    [random_position] uses, has no cap: on the same polygon it has not
    returned after any number [fuel] of passes, for any draws. *)
Theorem polygon_sampling_termination :
  (forall polygon z k, UniformPositionDistribution_get_position polygon z k <> Timeout) /\
  (forall z k, UniformPositionDistribution_get_position
                 [(0, 0); (0, 0); (0, 0); (0, 0)] z k = Raise RuntimeError) /\
  (forall fuel k, get_random_point_in_polygon fuel [(0, 0); (0, 0); (0, 0); (0, 0)] k
                  = Timeout).
Proof.
  split; [|split].
  - intros polygon z k; unfold UniformPositionDistribution_get_position, bind, lift.
    destruct (get_extents polygon) as [[[[xmin xmax] ymin] ymax]| |] eqn:E; cbv beta iota;
      [apply uniform_position_loop_no_timeout | discriminate |].
    exfalso; exact (get_extents_no_timeout polygon E).
  - intros z k; unfold UniformPositionDistribution_get_position, bind, lift.
    rewrite get_extents_degenerate; apply uniform_position_loop_rejects_all.
  - intros fuel k; unfold get_random_point_in_polygon, bind, lift.
    rewrite get_extents_degenerate; apply random_point_loop_rejects_all.
Qed.

(** ** The outer controller loop *)





(** ** Appending the deposited particles *)

Lemma parse_atoms_length (atom_data : list (list string)) (l : list vec3) :
  parse_atoms atom_data = Ok l -> length l = length atom_data.
Proof.
  revert l; induction atom_data as [|atom rest IH]; intros l H; simpl in H.
  - inversion H; reflexivity.
  - destruct (parse_atom atom) as [xyz| |]; simpl in H; try discriminate.
    destruct (parse_atoms rest) as [l'| |]; simpl in H; try discriminate.
    inversion H; subst; simpl; rewrite (IH l' eq_refl); reflexivity.
Qed.

(** [read_xyz] returns as many coordinates as element labels. *)
Lemma read_xyz_lengths (xyz_file : string) (mc : list vec3) (me : list string) (n : Z) :
  read_xyz xyz_file = Ok (mc, me, n) -> length mc = length me.
Proof.
  unfold read_xyz; destruct (files xyz_file) as [lines|]; [|discriminate].
  destruct (py_int (hd EmptyString lines)) as [num_atoms|]; [|discriminate].
  cbv zeta.
  destruct (Z.eqb (num_atoms + 2) 0); [discriminate|].
  match goal with |- context [if Z.ltb ?s 0 then _ else _] => destruct (Z.ltb s 0) end;
    [discriminate|].
  match goal with |- context [parse_atoms ?d] => destruct (parse_atoms d) as [l| |] eqn:E end;
    simpl; try discriminate.
  intro H; inversion H; subst.
  rewrite length_map, (parse_atoms_length _ _ E); reflexivity.
Qed.

Lemma random_diatomic_position_length (fuel : nat) (cell : simulation_cell) (z b : Q)
    (k : nat) (l : list vec3) (k' : nat) :
  random_diatomic_position fuel cell z b k = Ok (l, k') -> length l = 2%nat.
Proof.
  unfold random_diatomic_position; intro H.
  apply bind_Ok_inv in H; destruct H as [c [k1 [_ H]]].
  inversion H; reflexivity.
Qed.

Lemma random_diatomic_velocities_length (T m b minv : Q) (iterations k : nat)
    (l : list vec3) (k' : nat) :
  random_diatomic_velocities T m b minv iterations k = Ok (l, k') -> length l = 2%nat.
Proof.
  unfold random_diatomic_velocities; intro H.
  apply bind_Ok_inv in H; destruct H as [r1 [k1 [_ H]]].
  apply bind_Ok_inv in H; destruct H as [r2 [k2 [_ H]]].
  apply bind_Ok_inv in H; destruct H as [v [k3 [_ H]]].
  inversion H; reflexivity.
Qed.

Lemma random_molecule_position_length (fuel : nat) (cell : simulation_cell) (z : Q)
    (mc : list vec3) (k : nat) (l : list vec3) (k' : nat) :
  random_molecule_position fuel cell z mc k = Ok (l, k') -> length l = length mc.
Proof.
  unfold random_molecule_position; intro H.
  apply bind_Ok_inv in H; destruct H as [c [k1 [_ H]]].
  destruct mc as [|a rest]; [discriminate|].
  inversion H; subst; simpl; rewrite length_map; reflexivity.
Qed.

Lemma random_molecule_velocities_length (T mm minv : Q) (n : Z) (k : nat)
    (l : list vec3) (k' : nat) :
  random_molecule_velocities T mm minv n k = Ok (l, k') -> length l = Z.to_nat n.
Proof.
  unfold random_molecule_velocities; intro H.
  apply bind_Ok_inv in H; destruct H as [v [k1 [_ H]]].
  destruct (Z.ltb n 0); [discriminate|].
  inversion H; subst; apply repeat_length.
Qed.

(** One insertion event yields aligned lists, of length 1, 2, or the number
    of atom lines of the molecule file, provided that file's header count
    equals its number of atom lines. *)
Lemma new_particles_lengths (fuel : nat) (settings : deposition_settings)
    (cell : simulation_cell) (z : Q) (k : nat) (cn : list vec3) (en : list string)
    (vn : list vec3) (k' : nat) :
  (deposition_type settings = "molecule"%string ->
   forall mc me n, read_xyz (molecule_xyz_file settings) = Ok (mc, me, n) ->
   n = Z.of_nat (length me)) ->
  new_particles fuel settings cell z k = Ok ((cn, en, vn), k') ->
  length cn = length en /\ length en = length vn /\
  (deposition_type settings = "monatomic"%string -> length en = 1%nat) /\
  (deposition_type settings = "diatomic"%string -> length en = 2%nat) /\
  (deposition_type settings = "molecule"%string ->
   forall mc me n, read_xyz (molecule_xyz_file settings) = Ok (mc, me, n) ->
   length en = length me).
Proof.
  intros Hmol H; unfold new_particles in H; cbv zeta in H.
  destruct (String.eqb (deposition_type settings) "monatomic") eqn:Em.
  { apply String.eqb_eq in Em.
    destruct (atomic_mass (deposition_element settings)) as [mass|]; [|discriminate].
    apply bind_Ok_inv in H; destruct H as [c [k1 [_ H]]].
    apply bind_Ok_inv in H; destruct H as [v [k2 [_ H]]].
    inversion H; subst; rewrite Em.
    repeat split; try reflexivity; discriminate. }
  destruct (String.eqb (deposition_type settings) "diatomic") eqn:Ed.
  { apply String.eqb_eq in Ed.
    destruct (atomic_mass (deposition_element settings)) as [mass|]; [|discriminate].
    apply bind_Ok_inv in H; destruct H as [c [k1 [Hc H]]].
    apply bind_Ok_inv in H; destruct H as [v [k2 [Hv H]]].
    inversion H; subst.
    apply random_diatomic_position_length in Hc; apply random_diatomic_velocities_length in Hv.
    rewrite Hc, Hv, Ed; cbn [length repeat].
    repeat split; try reflexivity; discriminate. }
  destruct (String.eqb (deposition_type settings) "molecule") eqn:Eo; [|discriminate].
  apply String.eqb_eq in Eo.
  apply bind_Ok_inv in H; destruct H as [[[mc me] n] [k1 [Hr H]]].
  apply lift_Ok_inv in Hr; destruct Hr as [Hr _].
  apply bind_Ok_inv in H; destruct H as [mm [k2 [_ H]]].
  apply bind_Ok_inv in H; destruct H as [c [k3 [Hc H]]].
  apply bind_Ok_inv in H; destruct H as [v [k4 [Hv H]]].
  unfold ret in H; injection H as <- <- <- _.
  apply random_molecule_position_length in Hc; apply random_molecule_velocities_length in Hv.
  pose proof (Hmol Eo _ _ _ Hr) as Hn; pose proof (read_xyz_lengths _ _ _ _ Hr) as Hl.
  rewrite Hc, Hv, Hn, Nat2Z.id, Hl, Eo.
  split; [reflexivity|]; split; [reflexivity|]; split; [discriminate|]; split; [discriminate|].
  intros _ mc' me' n' Hr'; rewrite Hr in Hr'; injection Hr' as _ <- _; reflexivity.
Qed.

Lemma deposit_loop_aligned (fuel : nat) (settings : deposition_settings)
    (cell : simulation_cell) (z scale : Q) (remaining : nat) (coordinates : list vec3)
    (elements : list string) (velocities : list vec3) (k : nat)
    (c' : list vec3) (e' : list string) (v' : list vec3) (k' : nat) :
  (forall k0 cn en vn k1, new_particles fuel settings cell z k0 = Ok ((cn, en, vn), k1) ->
     length cn = length en /\ length en = length vn) ->
  length coordinates = length elements -> length elements = length velocities ->
  deposit_loop fuel settings cell z scale remaining coordinates elements velocities k
  = Ok ((c', e', v'), k') ->
  length c' = length e' /\ length e' = length v'.
Proof.
  intros Hnew; revert coordinates elements velocities k.
  induction remaining as [|n IH]; intros coordinates elements velocities k H1 H2 H;
    cbn [deposit_loop] in H.
  - unfold ret in H; injection H as <- <- <- _; split; assumption.
  - apply bind_Ok_inv in H; destruct H as [[[cn en] vn] [k1 [Hn H]]].
    destruct (Hnew _ _ _ _ _ Hn) as [A1 A2].
    apply (IH (coordinates ++ cn) (elements ++ en) (velocities ++ map (vscale scale) vn) k1);
      [rewrite !length_app; lia | rewrite !length_app, length_map; lia | exact H].
Qed.

Lemma deposit_loop_count (fuel : nat) (settings : deposition_settings)
    (cell : simulation_cell) (z scale : Q) (per remaining : nat) (coordinates : list vec3)
    (elements : list string) (velocities : list vec3) (k : nat)
    (c' : list vec3) (e' : list string) (v' : list vec3) (k' : nat) :
  (forall k0 cn en vn k1, new_particles fuel settings cell z k0 = Ok ((cn, en, vn), k1) ->
     length en = per) ->
  deposit_loop fuel settings cell z scale remaining coordinates elements velocities k
  = Ok ((c', e', v'), k') ->
  length e' = (length elements + remaining * per)%nat.
Proof.
  intros Hnew; revert coordinates elements velocities k.
  induction remaining as [|n IH]; intros coordinates elements velocities k H;
    cbn [deposit_loop] in H.
  - unfold ret in H; injection H as _ <- _ _; lia.
  - apply bind_Ok_inv in H; destruct H as [[[cn en] vn] [k1 [Hn H]]].
    rewrite (IH _ _ _ _ H), length_app, (Hnew _ _ _ _ _ Hn); lia.
Qed.

(** C7 (as amended): if the coordinate, element and velocity lists have
    equal lengths, then so do the lists returned by
    [append_new_coordinates_and_velocities], and they have grown by
    [num_deposited] times 1 (monatomic), 2 (diatomic) or the number of atom
    lines of the molecule file (molecule) -- provided that, for the
    molecule type, the header count [num_atoms] returned by [read_xyz]
    equals the number of atom lines it read. *)
Theorem append_preserves_alignment (fuel : nat) (settings : deposition_settings)
    (coordinates : list vec3) (elements : list string) (velocities : list vec3)
    (cell : simulation_cell) (velocity_scaling : Q) (k : nat)
    (coordinates' : list vec3) (elements' : list string) (velocities' : list vec3)
    (k' : nat) :
  length coordinates = length elements -> length elements = length velocities ->
  (deposition_type settings = "molecule"%string ->
   forall mc me n, read_xyz (molecule_xyz_file settings) = Ok (mc, me, n) ->
   n = Z.of_nat (length me)) ->
  append_new_coordinates_and_velocities fuel settings coordinates elements velocities
    cell velocity_scaling k = Ok ((coordinates', elements', velocities'), k') ->
  let num_deposited := Z.to_nat (num_deposited_per_iteration settings) in
  length coordinates' = length elements' /\ length elements' = length velocities' /\
  (deposition_type settings = "monatomic"%string ->
   length elements' = (length elements + num_deposited)%nat) /\
  (deposition_type settings = "diatomic"%string ->
   length elements' = (length elements + 2 * num_deposited)%nat) /\
  (deposition_type settings = "molecule"%string ->
   forall mc me n, read_xyz (molecule_xyz_file settings) = Ok (mc, me, n) ->
   length elements' = (length elements + num_deposited * length me)%nat).
Proof.
  intros H1 H2 Hmol H num_deposited.
  unfold append_new_coordinates_and_velocities in H.
  apply bind_Ok_inv in H; destruct H as [sh [k1 [_ H]]]; cbv zeta in H.
  set (z := sh + deposition_height_Angstroms settings) in H.
  assert (Hnew := fun k0 cn en vn k2 Hn =>
            new_particles_lengths fuel settings cell z k0 cn en vn k2 Hmol Hn).
  destruct (deposit_loop_aligned _ _ _ _ _ _ _ _ _ _ _ _ _ _
              (fun k0 cn en vn k2 Hn => conj (proj1 (Hnew k0 cn en vn k2 Hn))
                                             (proj1 (proj2 (Hnew k0 cn en vn k2 Hn))))
              H1 H2 H) as [A1 A2].
  split; [exact A1|]; split; [exact A2|]; split; [|split].
  - intro Ht; unfold num_deposited; rewrite (deposit_loop_count _ _ _ _ _ 1 _ _ _ _ _ _ _ _ _
      (fun k0 cn en vn k2 Hn => proj1 (proj2 (proj2 (Hnew k0 cn en vn k2 Hn))) Ht) H); lia.
  - intro Ht; unfold num_deposited; rewrite (deposit_loop_count _ _ _ _ _ 2 _ _ _ _ _ _ _ _ _
      (fun k0 cn en vn k2 Hn => proj1 (proj2 (proj2 (proj2 (Hnew k0 cn en vn k2 Hn)))) Ht) H);
      lia.
  - intros Ht mc me n Hr; unfold num_deposited.
    rewrite (deposit_loop_count _ _ _ _ _ (length me) _ _ _ _ _ _ _ _ _
      (fun k0 cn en vn k2 Hn =>
         proj2 (proj2 (proj2 (proj2 (Hnew k0 cn en vn k2 Hn)))) Ht mc me n Hr) H); lia.
Qed.

(** ** The checkpoint file *)

(** What the round trip through the YAML file needs from the library:
    [yaml.safe_load] reads back, from what [yaml.dump] wrote for a mapping
    of integers, strings and a [datetime], a mapping that associates each
    key with the same value (PyYAML sorts the keys when dumping). *)
Hypothesis yaml_round_trip : forall d : yaml_document,
  exists d', yaml_safe_load (yaml_dump d) = Ok d' /\
             forall key, dict_lookup key d' = dict_lookup key d.

(** C9: writing a status with [Status.write] and reading the written file
    with [Status.from_file] gives back the written status, whose
    [iteration_number], [sequential_failures], [total_failures] and
    [pickle_location] are those of the original ([last_updated] being the
    time of writing). *)
Theorem Status_write_from_file_roundtrip (now : Z) (status : Status) :
  let '(written, file) := Status_write now status in
  Status_from_file (Some file) = Ok written /\
  iteration_number written = iteration_number status /\
  sequential_failures written = sequential_failures status /\
  total_failures written = total_failures status /\
  pickle_location written = pickle_location status /\
  last_updated written = YTime now.
Proof.
  unfold Status_write; cbv zeta.
  split; [|repeat split; reflexivity].
  unfold Status_from_file.
  destruct (yaml_round_trip (Status_as_dict
    {| iteration_number := iteration_number status;
       sequential_failures := sequential_failures status;
       total_failures := total_failures status;
       pickle_location := pickle_location status;
       last_updated := YTime now |})) as [d' [Hload Hkeys]].
  rewrite Hload, !Hkeys; reflexivity.
Qed.

(** ** Further properties of the samplers *)

Lemma uniform_position_loop_inside (polygon : list (Q * Q)) (z xmin xmax ymin ymax : Q)
    (n k : nat) (x y z' : Q) (k' : nat) :
  uniform_position_loop polygon z xmin xmax ymin ymax n k = Ok (x, y, z', k') ->
  contains_point polygon (x, y) = true /\ z' = z.
Proof.
  revert k; induction n as [|n IH]; intros k H; simpl in H; [discriminate|].
  unfold bind, uniform in H.
  match type of H with context [contains_point polygon ?q] =>
    destruct (contains_point polygon q) eqn:E end.
  - unfold ret in H; injection H as <- <- <- _; split; [exact E | reflexivity].
  - exact (IH _ H).
Qed.

Lemma random_point_loop_inside (polygon : list (Q * Q)) (xmin xmax ymin ymax : Q)
    (fuel k : nat) (p : Q * Q) (k' : nat) :
  random_point_loop polygon xmin xmax ymin ymax fuel k = Ok (p, k') ->
  contains_point polygon p = true.
Proof.
  revert k; induction fuel as [|f IH]; intros k H; simpl in H; [discriminate|].
  unfold bind, uniform in H.
  match type of H with context [contains_point polygon ?q] =>
    destruct (contains_point polygon q) eqn:E end.
  - unfold ret in H; injection H as <- _; exact E.
  - exact (IH _ H).
Qed.

Lemma get_random_point_in_polygon_inside (fuel : nat) (polygon : list (Q * Q))
    (k : nat) (p : Q * Q) (k' : nat) :
  get_random_point_in_polygon fuel polygon k = Ok (p, k') ->
  contains_point polygon p = true.
Proof.
  unfold get_random_point_in_polygon; intro H; apply bind_Ok_inv in H.
  destruct H as [[[[xmin xmax] ymin] ymax] [k1 [_ H]]].
  exact (random_point_loop_inside _ _ _ _ _ _ _ _ _ H).
Qed.

(** The polygon [random_position] samples in: the base of the cell shifted
    by [relative_shift[0]] in both columns. *)
Lemma random_position_ok (fuel : nat) (cell : simulation_cell) (z : Q) (k : nat)
    (v : vec3) (k' : nat) :
  random_position fuel cell z k = Ok (v, k') ->
  let s := z / (z_max cell - z_min cell) * x3 (z_vector cell) in
  z3 v = z /\
  contains_point
    [(x_min cell + s, y_min cell + s); (x_max cell + s, y_min cell + s);
     (x_max cell + tilt_xy cell + s, y_max cell + s);
     (x_min cell + tilt_xy cell + s, y_max cell + s)] (x3 v, y3 v) = true.
Proof.
  unfold random_position; intro H.
  destruct (Qeq_bool (z_max cell - z_min cell) 0); [discriminate|].
  apply bind_Ok_inv in H; destruct H as [xy [k1 [Hxy H]]].
  unfold ret in H; injection H as <- _.
  apply get_random_point_in_polygon_inside in Hxy.
  destruct xy as [px py]; split; [reflexivity | exact Hxy].
Qed.

(** X1: a position returned by [UniformPositionDistribution.get_position]
    lies inside the polygon (by the same [contains_point] test) and has the
    distribution's own z-coordinate. *)
Theorem UniformPositionDistribution_get_position_inside (polygon : list (Q * Q)) (z : Q)
    (k : nat) (x y z' : Q) (k' : nat) :
  UniformPositionDistribution_get_position polygon z k = Ok (x, y, z', k') ->
  contains_point polygon (x, y) = true /\ z' = z.
Proof.
  unfold UniformPositionDistribution_get_position; intro H; apply bind_Ok_inv in H.
  destruct H as [[[[xmin xmax] ymin] ymax] [k1 [_ H]]].
  exact (uniform_position_loop_inside _ _ _ _ _ _ _ _ _ _ _ _ H).
Qed.

(** X2: a position returned by [random_position] is at the requested height
    [new_z_position], and its (x, y) lies inside the base polygon of the
    cell shifted by [new_z_position / lz] times the x-component of the
    cell's z-vector, in x and in y alike. *)
Theorem random_position_inside (fuel : nat) (cell : simulation_cell) (z : Q) (k : nat)
    (v : vec3) (k' : nat) :
  random_position fuel cell z k = Ok (v, k') ->
  let s := z / (z_max cell - z_min cell) * x3 (z_vector cell) in
  z3 v = z /\
  contains_point
    [(x_min cell + s, y_min cell + s); (x_max cell + s, y_min cell + s);
     (x_max cell + tilt_xy cell + s, y_max cell + s);
     (x_min cell + tilt_xy cell + s, y_max cell + s)] (x3 v, y3 v) = true.
Proof. exact (random_position_ok fuel cell z k v k'). Qed.

(** X3: a cell of zero height ([z_max = z_min]) makes [random_position]
    raise [ZeroDivisionError], before any random draw. *)
Theorem random_position_flat_cell (fuel : nat) (cell : simulation_cell) (z : Q) (k : nat) :
  z_max cell == z_min cell ->
  random_position fuel cell z k = Raise ZeroDivisionError.
Proof.
  intro H; unfold random_position.
  assert (E : Qeq_bool (z_max cell - z_min cell) 0 = true).
  { apply Qeq_bool_iff; rewrite H; ring. }
  rewrite E; reflexivity.
Qed.

(** X4: [random_diatomic_position] returns two atoms, both at the height
    [new_z_position] and with the same y, whose x-coordinates differ by
    exactly [bond_length]; their midpoint is a point returned by
    [random_position], so it lies inside the shifted base polygon. *)
Theorem random_diatomic_position_geometry (fuel : nat) (cell : simulation_cell) (z b : Q)
    (k : nat) (l : list vec3) (k' : nat) :
  random_diatomic_position fuel cell z b k = Ok (l, k') ->
  exists p1 p2 c, l = [p1; p2] /\
    random_position fuel cell z k = Ok (c, k') /\
    x3 p1 - x3 p2 == b /\ y3 p1 = y3 p2 /\ z3 p1 = z /\ z3 p2 = z /\
    (x3 p1 + x3 p2) / 2 == x3 c /\ y3 p1 = y3 c.
Proof.
  unfold random_diatomic_position; intro H; apply bind_Ok_inv in H.
  destruct H as [c [k1 [Hc H]]]; unfold ret in H; injection H as <- <-.
  destruct (random_position_ok _ _ _ _ _ _ Hc) as [Hz _].
  eexists; eexists; exists c; split; [reflexivity|]; split; [exact Hc|].
  simpl; repeat split; try exact Hz; try reflexivity; field.
Qed.

Lemma random_velocity_ok (T m minv : Q) (n k : nat) (v : vec3) (k' : nat) :
  random_velocity T m minv n k = Ok (v, k') ->
  exists d, z3 v = - Qabs d /\ minv < Qabs d.
Proof.
  unfold random_velocity; intro H.
  apply bind_Ok_inv in H; destruct H as [vx [k1 [_ H]]].
  apply bind_Ok_inv in H; destruct H as [vy [k2 [_ H]]].
  destruct (random_velocity_loop_ok _ _ _ _ _ _ _ _ _ H) as [_ [_ Hz]]; exact Hz.
Qed.

Lemma random_velocity_cases (T m minv : Q) (n k : nat) :
  (exists v k', random_velocity T m minv n k = Ok (v, k')) \/
  random_velocity T m minv n k = Raise ValueError.
Proof.
  unfold random_velocity, bind.
  destruct (velocity_from_normal_distribution_cases T m k) as [[vx [k1 E1]]|E1];
    rewrite E1; [|right; reflexivity].
  destruct (velocity_from_normal_distribution_cases T m k1) as [[vy [k2 E2]]|E2];
    rewrite E2; [|right; reflexivity].
  apply random_velocity_loop_cases.
Qed.

Lemma vsum_component (f : vec3 -> Q) (l : list vec3) (acc : vec3) :
  (forall a b, f (vadd a b) == f a + f b) ->
  f (fold_left vadd l acc) == f acc + sum_component f l.
Proof.
  intro Hadd; revert acc; induction l as [|a l IH]; intro acc; simpl.
  - unfold sum_component; simpl; ring.
  - rewrite IH, Hadd; unfold sum_component; simpl; ring.
Qed.

Lemma sum_component_shift (f : vec3 -> Q) (g : vec3 -> vec3) (a b : Q) (l : list vec3) :
  (forall p, f (g p) == a + (f p - b)) ->
  sum_component f (map g l)
  == inject_Z (Z.of_nat (length l)) * (a - b) + sum_component f l.
Proof.
  intro Hg; induction l as [|p l IH]; unfold sum_component in *;
    cbn [map fold_right length].
  - ring.
  - rewrite IH, Hg, Nat2Z.inj_succ, <- Z.add_1_r, inject_Z_plus; ring.
Qed.

Lemma molecule_centroid_component (f : vec3 -> Q) (c : vec3) (mc : list vec3) :
  (forall a b, f (vadd a b) == f a + f b) ->
  (forall a b, f (vsub a b) == f a - f b) ->
  (forall s a, f (vscale s a) == s * f a) ->
  f (V3 0 0 0) == 0 ->
  mc <> [] ->
  let N := inject_Z (Z.of_nat (length mc)) in
  let m := vscale (1 / N) (vsum mc) in
  f (vscale (1 / N) (vsum (map (fun p => vadd c (vsub p m)) mc))) == f c.
Proof.
  intros Hadd Hsub Hscale H0 Hne N m.
  assert (HN : ~ N == 0).
  { unfold N; destruct mc as [|p mc]; [contradiction|].
    unfold Qeq; simpl; lia. }
  unfold vsum; rewrite Hscale, (vsum_component f _ _ Hadd), H0.
  rewrite (sum_component_shift f _ (f c) (f m)); [|intro p; rewrite Hadd, Hsub; reflexivity].
  fold N.
  unfold m; rewrite Hscale; unfold vsum; rewrite (vsum_component f _ _ Hadd), H0.
  field; exact HN.
Qed.

Lemma random_molecule_position_ok (fuel : nat) (cell : simulation_cell) (z : Q)
    (mc : list vec3) (k : nat) (l : list vec3) (k' : nat) :
  random_molecule_position fuel cell z mc k = Ok (l, k') ->
  mc <> [] /\ exists c, random_position fuel cell z k = Ok (c, k') /\
    l = map (fun p => vadd c (vsub p (vscale (1 / inject_Z (Z.of_nat (length mc)))
                                              (vsum mc)))) mc.
Proof.
  unfold random_molecule_position; intro H.
  apply bind_Ok_inv in H; destruct H as [c [k1 [Hc H]]].
  destruct mc as [|a rest]; [discriminate|].
  unfold ret in H; injection H as E <-.
  split; [discriminate|]; exists c; split; [exact Hc|]; subst l; reflexivity.
Qed.

(** X5: [random_diatomic_velocities] returns two velocities with the same
    x-component whose mean z-component is the translational [v_z] of
    [random_velocity] for the mass [2 * particle_mass]: [-|d|] for a draw
    [d] with [|d| > minimum_velocity], so never positive, and negative when
    [minimum_velocity >= 0]. The rotational parts cancel out in the mean. *)
Theorem random_diatomic_velocities_centre_of_mass (T m b minv : Q) (n k : nat)
    (l : list vec3) (k' : nat) :
  random_diatomic_velocities T m b minv n k = Ok (l, k') ->
  exists v1 v2 d, l = [v1; v2] /\ x3 v1 = x3 v2 /\
    (z3 v1 + z3 v2) / 2 == - Qabs d /\ minv < Qabs d /\
    (0 <= minv -> (z3 v1 + z3 v2) / 2 < 0).
Proof.
  unfold random_diatomic_velocities; intro H.
  apply bind_Ok_inv in H; destruct H as [r1 [k1 [_ H]]].
  apply bind_Ok_inv in H; destruct H as [r2 [k2 [_ H]]].
  apply bind_Ok_inv in H; destruct H as [v [k3 [Hv H]]].
  unfold ret in H; injection H as <- _.
  destruct (random_velocity_ok _ _ _ _ _ _ _ Hv) as [d [Hz Hd]].
  eexists; eexists; exists d; split; [reflexivity|]; split; [reflexivity|].
  match goal with |- ?e == - Qabs d /\ _ =>
    assert (Hm : e == - Qabs d) by (simpl; rewrite Hz; field) end.
  split; [exact Hm|]; split; [exact Hd|].
  intro H0; rewrite Hm; exact (Qopp_lt_compat 0 (Qabs d) (Qle_lt_trans _ _ _ H0 Hd)).
Qed.

(** X6: [random_molecule_velocities] gives every atom one and the same
    velocity, whose z-component is [-|d|] for a draw [d] with
    [|d| > minimum_velocity] (negative when [minimum_velocity >= 0]), as
    many times as [num_atoms] ([num_atoms >= 0]); a
    negative [num_atoms] always ends in [ValueError]. *)
Theorem random_molecule_velocities_spec (T mm minv : Q) (n : Z) (k : nat) :
  ((n < 0)%Z -> random_molecule_velocities T mm minv n k = Raise ValueError) /\
  (forall l k', random_molecule_velocities T mm minv n k = Ok (l, k') ->
     (0 <= n)%Z /\ exists v d, l = repeat v (Z.to_nat n) /\
       z3 v = - Qabs d /\ minv < Qabs d /\ (0 <= minv -> z3 v < 0)).
Proof.
  split.
  - intro Hn; unfold random_molecule_velocities, bind.
    destruct (random_velocity_cases T mm minv 10000 k) as [[v [k1 E]]|E]; rewrite E;
      [|reflexivity].
    assert (En : Z.ltb n 0 = true) by (apply Z.ltb_lt; exact Hn).
    rewrite En; reflexivity.
  - intros l k' H; unfold random_molecule_velocities in H.
    apply bind_Ok_inv in H; destruct H as [v [k1 [Hv H]]].
    destruct (Z.ltb n 0) eqn:En; [discriminate|].
    apply Z.ltb_ge in En; unfold ret in H; injection H as <- _.
    destruct (random_velocity_ok _ _ _ _ _ _ _ Hv) as [d [Hz Hd]].
    split; [exact En|]; exists v, d; split; [reflexivity|].
    split; [exact Hz|]; split; [exact Hd|].
    intro H0; rewrite Hz; exact (Qopp_lt_compat 0 (Qabs d) (Qle_lt_trans _ _ _ H0 Hd)).
Qed.

(** X7: [random_molecule_position] moves the molecule rigidly: it keeps the
    number of atoms and every difference between two atom positions, and
    the centroid of the placed atoms is the point returned by
    [random_position], at the height [new_z_position]. *)
Theorem random_molecule_position_rigid (fuel : nat) (cell : simulation_cell) (z : Q)
    (mc : list vec3) (k : nat) (l : list vec3) (k' : nat) :
  random_molecule_position fuel cell z mc k = Ok (l, k') ->
  length l = length mc /\
  (forall i j, (i < length mc)%nat -> (j < length mc)%nat ->
     let d := V3 0 0 0 in
     x3 (vsub (nth i l d) (nth j l d)) == x3 (vsub (nth i mc d) (nth j mc d)) /\
     y3 (vsub (nth i l d) (nth j l d)) == y3 (vsub (nth i mc d) (nth j mc d)) /\
     z3 (vsub (nth i l d) (nth j l d)) == z3 (vsub (nth i mc d) (nth j mc d))) /\
  exists c, random_position fuel cell z k = Ok (c, k') /\ z3 c = z /\
    let centroid := vscale (1 / inject_Z (Z.of_nat (length l))) (vsum l) in
    x3 centroid == x3 c /\ y3 centroid == y3 c /\ z3 centroid == z3 c.
Proof.
  intro H; apply random_molecule_position_ok in H.
  destruct H as [Hne [c [Hc ->]]].
  set (m := vscale (1 / inject_Z (Z.of_nat (length mc))) (vsum mc)).
  destruct (random_position_ok _ _ _ _ _ _ Hc) as [Hz _].
  split; [apply length_map|]; split.
  - intros i j Hi Hj d.
    rewrite (nth_indep _ d (vadd c (vsub d m)) ltac:(rewrite length_map; exact Hi)).
    rewrite (nth_indep _ d (vadd c (vsub d m)) ltac:(rewrite length_map; exact Hj)).
    rewrite !(map_nth (fun p => vadd c (vsub p m))).
    simpl; repeat split; ring.
  - exists c; split; [exact Hc|]; split; [exact Hz|].
    rewrite length_map; cbv zeta.
    split; [|split]; apply molecule_centroid_component; try exact Hne;
      intros; simpl; reflexivity.
Qed.

(** ** Further properties of the injection and of the neighbour list *)

Lemma new_particles_elements (fuel : nat) (settings : deposition_settings)
    (cell : simulation_cell) (z : Q) (k : nat) (cn : list vec3) (en : list string)
    (vn : list vec3) (k' : nat) :
  new_particles fuel settings cell z k = Ok ((cn, en, vn), k') ->
  (deposition_type settings = "monatomic"%string \/
   deposition_type settings = "diatomic"%string) ->
  Forall (fun e => e = deposition_element settings) en.
Proof.
  intros H Ht; unfold new_particles in H; cbv zeta in H.
  destruct (String.eqb (deposition_type settings) "monatomic") eqn:Em.
  { destruct (atomic_mass (deposition_element settings)) as [mass|]; [|discriminate].
    apply bind_Ok_inv in H; destruct H as [c [k1 [_ H]]].
    apply bind_Ok_inv in H; destruct H as [v [k2 [_ H]]].
    unfold ret in H; injection H as _ <- _ _.
    apply Forall_forall; intros e He.
    repeat (destruct He as [He|He]; [symmetry; exact He|]); destruct He. }
  destruct (String.eqb (deposition_type settings) "diatomic") eqn:Ed.
  { destruct (atomic_mass (deposition_element settings)) as [mass|]; [|discriminate].
    apply bind_Ok_inv in H; destruct H as [c [k1 [_ H]]].
    apply bind_Ok_inv in H; destruct H as [v [k2 [_ H]]].
    unfold ret in H; injection H as _ <- _ _.
    apply Forall_forall; intros e He.
    repeat (destruct He as [He|He]; [symmetry; exact He|]); destruct He. }
  exfalso; destruct Ht as [Ht|Ht]; rewrite Ht in *; discriminate.
Qed.

Lemma deposit_loop_prefix (fuel : nat) (settings : deposition_settings)
    (cell : simulation_cell) (z scale : Q) (remaining : nat) (coordinates : list vec3)
    (elements : list string) (velocities : list vec3) (k : nat)
    (c' : list vec3) (e' : list string) (v' : list vec3) (k' : nat) :
  deposit_loop fuel settings cell z scale remaining coordinates elements velocities k
  = Ok ((c', e', v'), k') ->
  exists sc se sv, c' = coordinates ++ sc /\ e' = elements ++ se /\
    v' = velocities ++ sv /\
    ((deposition_type settings = "monatomic"%string \/
      deposition_type settings = "diatomic"%string) ->
     Forall (fun e => e = deposition_element settings) se).
Proof.
  revert coordinates elements velocities k.
  induction remaining as [|n IH]; intros coordinates elements velocities k H;
    cbn [deposit_loop] in H.
  - unfold ret in H; injection H as <- <- <- _.
    exists [], [], []; rewrite !app_nil_r; split; [reflexivity|]; split; [reflexivity|].
    split; [reflexivity|]; intros _; constructor.
  - apply bind_Ok_inv in H; destruct H as [[[cn en] vn] [k1 [Hn H]]].
    destruct (IH _ _ _ _ H) as [sc [se [sv [-> [-> [-> Hse]]]]]].
    exists (cn ++ sc), (en ++ se), (map (vscale scale) vn ++ sv).
    rewrite <- !app_assoc; split; [reflexivity|]; split; [reflexivity|].
    split; [reflexivity|]; intro Ht.
    apply Forall_app; split; [exact (new_particles_elements _ _ _ _ _ _ _ _ _ Hn Ht) |
                              exact (Hse Ht)].
Qed.

(** X8: [append_new_coordinates_and_velocities] never changes the particles
    it is given: the input coordinate, element and velocity lists are
    prefixes of the returned ones; and for a monatomic or diatomic
    deposition every appended element is the deposition element. *)
Theorem append_keeps_existing_particles (fuel : nat) (settings : deposition_settings)
    (coordinates : list vec3) (elements : list string) (velocities : list vec3)
    (cell : simulation_cell) (scale : Q) (k : nat)
    (c' : list vec3) (e' : list string) (v' : list vec3) (k' : nat) :
  append_new_coordinates_and_velocities fuel settings coordinates elements velocities
    cell scale k = Ok ((c', e', v'), k') ->
  exists sc se sv, c' = coordinates ++ sc /\ e' = elements ++ se /\
    v' = velocities ++ sv /\
    ((deposition_type settings = "monatomic"%string \/
      deposition_type settings = "diatomic"%string) ->
     Forall (fun e => e = deposition_element settings) se).
Proof.
  unfold append_new_coordinates_and_velocities; intro H.
  apply bind_Ok_inv in H; destruct H as [h [k1 [_ H]]].
  exact (deposit_loop_prefix _ _ _ _ _ _ _ _ _ _ _ _ _ _ H).
Qed.

Lemma norm_lt_mono (s : vec3) (c c' : Q) :
  norm_lt s c = true -> c <= c' -> norm_lt s c' = true.
Proof.
  unfold norm_lt; intros H Hc; apply andb_true_iff in H; destruct H as [H1 H2].
  apply Qlt_bool_iff in H1; apply Qlt_bool_iff in H2.
  apply andb_true_iff; split; apply Qlt_bool_iff.
  - apply (Qlt_le_trans _ c); assumption.
  - apply (Qlt_le_trans _ (c * c)); [exact H2|].
    apply (Qle_trans _ (c' * c)).
    + apply Qmult_le_compat_r; [exact Hc | apply Qlt_le_weak; exact H1].
    + rewrite !(Qmult_comm c'); apply Qmult_le_compat_r;
        [exact Hc | apply (Qle_trans _ c); [apply Qlt_le_weak; exact H1 | exact Hc]].
Qed.

Lemma filter_length_mono {A} (f g : A -> bool) (l : list A) :
  (forall x, f x = true -> g x = true) ->
  (length (filter f l) <= length (filter g l))%nat.
Proof.
  intro Hfg; induction l as [|a l IH]; simpl; [lia|].
  destruct (f a) eqn:Ef; [rewrite (Hfg a Ef); simpl; lia|].
  destruct (g a); simpl; lia.
Qed.

Lemma Forall2_map_le {A} (f g : A -> nat) (l : list A) :
  (forall x, (f x <= g x)%nat) -> Forall2 le (map f l) (map g l).
Proof.
  intro Hfg; induction l as [|a l IH]; simpl; constructor; [apply Hfg | exact IH].
Qed.

Lemma neighbour_list_mono (cell : simulation_cell) (coordinates : list vec3) (c c' : Q) :
  c <= c' ->
  Forall2 le (generate_neighbour_list cell coordinates c)
             (generate_neighbour_list cell coordinates c').
Proof.
  intro Hc; unfold generate_neighbour_list; apply Forall2_map_le; intro r.
  apply filter_length_mono; intros x Hx; exact (norm_lt_mono _ _ _ Hx Hc).
Qed.

Lemma existsb_le_Forall2 (m : nat) (l1 l2 : list nat) :
  Forall2 le l1 l2 ->
  existsb (fun n => Nat.leb n m) l2 = true -> existsb (fun n => Nat.leb n m) l1 = true.
Proof.
  induction 1 as [|a b l1 l2 Hab _ IH]; simpl; [discriminate|].
  intro H; apply orb_true_iff in H; apply orb_true_iff; destruct H as [H|H].
  - left; apply Nat.leb_le in H; apply Nat.leb_le; lia.
  - right; exact (IH H).
Qed.

(** X9: the neighbour counts of [generate_neighbour_list] grow with the
    cutoff: with a cutoff [c <= c'], each particle has at most as many
    neighbours (itself and its images included) as with [c']. *)
Theorem generate_neighbour_list_monotone (cell : simulation_cell)
    (coordinates : list vec3) (c c' : Q) :
  c <= c' ->
  Forall2 le (generate_neighbour_list cell coordinates c)
             (generate_neighbour_list cell coordinates c').
Proof. exact (neighbour_list_mono cell coordinates c c'). Qed.

(** X10: a configuration that passes [check_min_neighbours] with a bonding
    cutoff [c] (no [RuntimeWarning], no [ValueError]) also passes it with
    any larger cutoff [c']. *)
Theorem check_min_neighbours_monotone (cell : simulation_cell) (coordinates : list vec3)
    (deposition_type : string) (c c' : Q) :
  check_min_neighbours cell coordinates deposition_type c = Ok tt -> c <= c' ->
  check_min_neighbours cell coordinates deposition_type c' = Ok tt.
Proof.
  unfold check_min_neighbours; intros H Hc.
  destruct (min_neighbours_for deposition_type) as [m|]; [|discriminate].
  destruct coordinates as [|p ps]; [discriminate|].
  destruct (existsb (fun n => Nat.leb n m) (generate_neighbour_list cell (p :: ps) c'))
    eqn:E; [|reflexivity].
  rewrite (existsb_le_Forall2 m _ _ (neighbour_list_mono cell (p :: ps) c c' Hc) E) in H.
  discriminate.
Qed.

(** ** Further properties of the input code *)

(** X11: on a file whose header line reads as [n >= 0] atoms and whose
    length is a whole number [k + 1 >= 1] of frames of [n + 2] lines,
    [read_xyz] returns the atoms of the last [n] lines, the last frame. *)
Theorem read_xyz_last_frame (xyz_file : string) (lines pre last : list string)
    (n k : nat) :
  files xyz_file = Some lines ->
  py_int (hd EmptyString lines) = Some (Z.of_nat n) ->
  length lines = (S k * (n + 2))%nat ->
  lines = pre ++ last -> length last = n ->
  read_xyz xyz_file =
    (let atom_data := map py_split last in
     coordinates <-? parse_atoms atom_data ;;
     Ok (coordinates, map (hd EmptyString) atom_data, Z.of_nat n)).
Proof.
  intros Hf Hh Hlen Hsplit Hlast; unfold read_xyz; rewrite Hf, Hh.
  assert (Hpre : length pre = (k * (n + 2) + 2)%nat).
  { rewrite Hsplit, length_app, Hlast in Hlen; nia. }
  assert (E0 : Z.eqb (Z.of_nat n + 2) 0 = false) by (apply Z.eqb_neq; lia).
  rewrite E0.
  assert (Eq : Z.quot (Z.of_nat (length lines)) (Z.of_nat n + 2) = Z.of_nat (S k)).
  { rewrite Hlen, Nat2Z.inj_mul, Nat2Z.inj_add.
    apply Z.quot_mul; lia. }
  rewrite Eq.
  assert (Es : ((Z.of_nat n + 2) * (Z.of_nat (S k) - 1) + 2)%Z = Z.of_nat (length pre)).
  { rewrite Hpre; lia. }
  rewrite Es.
  assert (El : Z.ltb (Z.of_nat (length pre)) 0 = false) by (apply Z.ltb_ge; lia).
  rewrite El, Nat2Z.id, Hsplit, skipn_app, skipn_all, Nat.sub_diag; reflexivity.
Qed.

(** X12: a file shorter than one frame ([n + 2] lines for a header count
    [n > 0]) makes [read_xyz] raise [ValueError] (the negative count given to
    [itertools.islice]). *)
Theorem read_xyz_short_file (xyz_file : string) (lines : list string) (n : Z) :
  files xyz_file = Some lines ->
  py_int (hd EmptyString lines) = Some n ->
  (0 < n)%Z -> (Z.of_nat (length lines) < n + 2)%Z ->
  read_xyz xyz_file = Raise ValueError.
Proof.
  intros Hf Hh Hn Hlen; unfold read_xyz; rewrite Hf, Hh.
  assert (E0 : Z.eqb (n + 2) 0 = false) by (apply Z.eqb_neq; lia).
  rewrite E0, Z.quot_small by lia.
  assert (El : Z.ltb ((n + 2) * (0 - 1) + 2) 0 = true) by (apply Z.ltb_lt; lia).
  rewrite El; reflexivity.
Qed.

Lemma masses_of_app (e1 e2 : list string) :
  masses_of (e1 ++ e2) = (a <-? masses_of e1 ;; b <-? masses_of e2 ;; Ok (a ++ b)).
Proof.
  induction e1 as [|e e1 IH]; simpl.
  - destruct (masses_of e2); reflexivity.
  - rewrite IH; destruct (element_mass e); [|reflexivity|reflexivity]; simpl.
    destruct (masses_of e1); [|reflexivity|reflexivity]; simpl.
    destruct (masses_of e2); reflexivity.
Qed.

Lemma fold_Qplus_acc (l : list Q) (acc : Q) :
  fold_left Qplus l acc == acc + fold_left Qplus l 0.
Proof.
  revert acc; induction l as [|a l IH]; intro acc; simpl; [ring|].
  rewrite (IH (acc + a)), (IH (0 + a)); ring.
Qed.

(** X13: [calculate_molecular_mass] is additive: the mass of the
    concatenation of two element lists is defined exactly when both masses
    are, and is then their sum. *)
Theorem calculate_molecular_mass_app (e1 e2 : list string) :
  match calculate_molecular_mass (e1 ++ e2),
        calculate_molecular_mass e1, calculate_molecular_mass e2 with
  | Ok m, Ok m1, Ok m2 => m == m1 + m2
  | Ok _, _, _ => False
  | _, Ok _, Ok _ => False
  | _, _, _ => True
  end.
Proof.
  unfold calculate_molecular_mass; rewrite masses_of_app.
  destruct (masses_of e1) as [a| |]; simpl; [|exact I|exact I].
  destruct (masses_of e2) as [b| |]; simpl; [|exact I|exact I].
  rewrite fold_left_app, fold_Qplus_acc; ring.
Qed.

(** X14: [calculate_molecular_mass] raises [ValueError] exactly when some
    element symbol of the list has no atomic mass; otherwise it returns a
    value. *)
Theorem calculate_molecular_mass_unknown (elements : list string) :
  (calculate_molecular_mass elements = Raise ValueError <->
   exists e, In e elements /\ atomic_mass e = None) /\
  ((forall e, In e elements -> atomic_mass e <> None) ->
   exists m, calculate_molecular_mass elements = Ok m).
Proof.
  assert (Hcases : forall l, (exists ms, masses_of l = Ok ms) \/
            (masses_of l = Raise ValueError /\ exists e, In e l /\ atomic_mass e = None)).
  { induction l as [|e l IH]; simpl; [left; eexists; reflexivity|].
    unfold element_mass; destruct (atomic_mass e) eqn:Ea; simpl.
    - destruct IH as [[ms ->]|[-> [e' [He' Ha]]]]; simpl; [left; eexists; reflexivity|].
      right; split; [reflexivity | exists e'; split; [right; exact He' | exact Ha]].
    - right; split; [reflexivity | exists e; split; [left; reflexivity | exact Ea]]. }
  assert (Hnone : forall l, (exists e, In e l /\ atomic_mass e = None) ->
            masses_of l = Raise ValueError).
  { induction l as [|e l IH]; intros [e' [He' Ha]]; [destruct He'|]; simpl.
    unfold element_mass; destruct He' as [<-|He'].
    - rewrite Ha; reflexivity.
    - destruct (atomic_mass e); [|reflexivity]; simpl.
      rewrite (IH (ex_intro _ e' (conj He' Ha))); reflexivity. }
  unfold calculate_molecular_mass; split; [split|].
  - intro H; destruct (Hcases elements) as [[ms E]|[_ Hex]]; [|exact Hex].
    rewrite E in H; discriminate.
  - intro Hex; rewrite (Hnone _ Hex); reflexivity.
  - intro Hall; destruct (Hcases elements) as [[ms E]|[_ [e [He Ha]]]].
    + rewrite E; eexists; reflexivity.
    + exfalso; exact (Hall e He Ha).
Qed.

(** ** Further properties of the controller loop *)

Lemma run_loop_counters (fuel k : nat) (max_it max_f : Z) (status : DepositionStatus)
    (code : Z) (status' : DepositionStatus) :
  run_loop fuel k max_it max_f status = Ok (code, status') ->
  (ds_iteration_number status < ds_iteration_number status' /\
   ds_total_failures status' - ds_total_failures status
     <= ds_iteration_number status' - ds_iteration_number status)%Z /\
  (counters_consistent status -> counters_consistent status').
Proof.
  revert k status; induction fuel as [|f IH]; intros k status H; simpl in H; [discriminate|].
  destruct (iteration_run k status) as [success loc].
  assert (Hstep : (ds_iteration_number (update_status status success loc)
                     = ds_iteration_number status + 1 /\
                   ds_total_failures status <= ds_total_failures (update_status status success loc)
                     <= ds_total_failures status + 1)%Z /\
                  (counters_consistent status ->
                   counters_consistent (update_status status success loc))).
  { unfold counters_consistent; destruct success; simpl; split; lia. }
  destruct Hstep as [[Hit Htot] Hinv].
  destruct (Z.ltb max_it _) eqn:E1; [unfold ret in H; injection H as _ <-; split; [lia | exact Hinv]|].
  destruct (Z.ltb max_f _) eqn:E2; [injection H as _ <-; split; [lia | exact Hinv]|].
  destruct (IH _ _ H) as [Hrel Hinv']; split; [lia | intro Hc; exact (Hinv' (Hinv Hc))].
Qed.

(** X15: over a run of [Deposition.run] from a status file,
    [iteration_number] strictly increases and [total_failures] grows by at
    most the number of iterations run; the relation [0 <=
    sequential_failures <= total_failures <= iteration_number - 1] is kept
    (it holds for [initial_status]). *)
Theorem deposition_run_counters (fuel : nat) (substrate_xyz_file : string)
    (status : DepositionStatus) (max_it max_f code : Z) (status' : DepositionStatus) :
  Deposition_run fuel substrate_xyz_file (Some status) max_it max_f = Ok (code, status') ->
  (ds_iteration_number status < ds_iteration_number status' /\
   ds_total_failures status' - ds_total_failures status
     <= ds_iteration_number status' - ds_iteration_number status)%Z /\
  (counters_consistent status -> counters_consistent status').
Proof.
  unfold Deposition_run; intro H; cbn [rbind] in H.
  exact (run_loop_counters _ _ _ _ _ _ _ H).
Qed.

(** ** Further properties of the structural analysis *)

Lemma py_max_Ok_spec (l : list Q) (m : Q) :
  py_max l = Ok m -> In m l /\ (forall x, In x l -> x <= m).
Proof.
  intro H; destruct l as [|h t]; [discriminate|].
  destruct (py_max_ok (h :: t) ltac:(discriminate)) as [m' [E [Hin Hall]]].
  rewrite H in E; injection E as <-; split; assumption.
Qed.

(** X16: with a cell of non-negative height, searching a larger part of the
    box never lowers the surface height: if [get_surface_height] returns
    [m] for the percentage [p], it returns a value [>= m] for any
    percentage [p' >= p]. *)
Theorem get_surface_height_monotone (cell : simulation_cell) (coordinates : list vec3)
    (p p' m : Q) :
  0 <= z_max cell - z_min cell -> p <= p' ->
  get_surface_height cell coordinates p = Ok m ->
  exists m', get_surface_height cell coordinates p' = Ok m' /\ m <= m'.
Proof.
  intros Hlz Hp H; unfold get_surface_height in *.
  set (lz := z_max cell - z_min cell) in *.
  assert (Hc : lz * (p / 100) <= lz * (p' / 100)).
  { rewrite !(Qmult_comm lz); apply Qmult_le_compat_r; [|exact Hlz].
    unfold Qdiv; apply Qmult_le_compat_r; [exact Hp | discriminate]. }
  destruct (py_max_Ok_spec _ _ H) as [Hin _].
  assert (Hin' : In m (map z3 (filter (fun xyz => Qlt_bool (z3 xyz) (lz * (p' / 100)))
                                       coordinates))).
  { apply in_map_iff in Hin; destruct Hin as [q [Hq Hf]]; apply filter_In in Hf.
    destruct Hf as [Hq' Hlt]; apply in_map_iff; exists q; split; [exact Hq|].
    apply filter_In; split; [exact Hq'|]; apply Qlt_bool_iff; apply Qlt_bool_iff in Hlt.
    apply (Qlt_le_trans _ _ _ Hlt Hc). }
  destruct (py_max_ok _ (fun E => in_nil (eq_rect _ (In m) Hin' _ E)))
    as [m' [E' [_ Hall]]].
  exists m'; split; [exact E' | exact (Hall m Hin')].
Qed.

Lemma Qlt_bool_compat (x x' y y' : Q) : x == x' -> y == y' -> Qlt_bool x y = Qlt_bool x' y'.
Proof.
  intros Hx Hy; destruct (Qlt_bool x' y') eqn:E.
  - apply Qlt_bool_iff; apply Qlt_bool_iff in E; rewrite Hx, Hy; exact E.
  - apply Qlt_bool_false; apply Qlt_bool_false in E; rewrite Hx, Hy; exact E.
Qed.

Lemma norm_lt_compat (s s' : vec3) (c : Q) : veqv s s' -> norm_lt s c = norm_lt s' c.
Proof.
  intros [Hx [Hy Hz]]; unfold norm_lt, dot; f_equal.
  apply Qlt_bool_compat; [rewrite Hx, Hy, Hz|]; reflexivity.
Qed.

Lemma filter_length_Forall2 {A B} (f : A -> bool) (g : B -> bool) (R : A -> B -> Prop)
    (l : list A) (l' : list B) :
  (forall a b, R a b -> f a = g b) -> Forall2 R l l' ->
  length (filter f l) = length (filter g l').
Proof.
  intros Hfg; induction 1 as [|a b l l' Hab _ IH]; simpl; [reflexivity|].
  rewrite (Hfg a b Hab); destruct (g b); simpl; rewrite IH; reflexivity.
Qed.

Lemma map_Forall2_eq {A B C} (f : A -> C) (g : B -> C) (R : A -> B -> Prop)
    (l : list A) (l' : list B) :
  (forall a b, R a b -> f a = g b) -> Forall2 R l l' -> map f l = map g l'.
Proof.
  intros Hfg; induction 1 as [|a b l l' Hab _ IH]; simpl; [reflexivity|].
  rewrite (Hfg a b Hab), IH; reflexivity.
Qed.

Lemma Forall2_map_same {A B} (R : A -> B -> Prop) (f : A -> A) (g : B -> B)
    (l : list A) (l' : list B) :
  (forall a b, R a b -> R (f a) (g b)) -> Forall2 R l l' -> Forall2 R (map f l) (map g l').
Proof.
  intros Hfg; induction 1; simpl; constructor; auto.
Qed.

(** [a] is [b] shifted by [t]. *)
Lemma wrap_translate (cell : simulation_cell) (coordinates : list vec3) (pct : Q) (t : vec3) :
  z3 t == 0 ->
  Forall2 (fun a b => veqv a (vadd b t))
    (wrap_periodic_coordinates_in_z cell (map (fun p => vadd p t) coordinates) pct)
    (wrap_periodic_coordinates_in_z cell coordinates pct).
Proof.
  intro Ht; unfold wrap_periodic_coordinates_in_z; rewrite map_map.
  induction coordinates as [|p l IH]; simpl; constructor; [|exact IH].
  rewrite (Qlt_bool_compat _ ((z_max cell - z_min cell) * (pct / 100)) (z3 p + z3 t) (z3 p));
    [| reflexivity | rewrite Ht; ring].
  destruct (Qlt_bool _ (z3 p)); unfold veqv; simpl; repeat split; ring.
Qed.

Lemma periodic_images_translate (cell : simulation_cell) (t : vec3) (n : nat)
    (l l' : list vec3) :
  Forall2 (fun a b => veqv a (vadd b t)) l l' ->
  Forall2 (fun a b => veqv a (vadd b t))
    (generate_periodic_images_xy cell l n) (generate_periodic_images_xy cell l' n).
Proof.
  intro H; unfold generate_periodic_images_xy.
  generalize (ndindex (n * 2 + 1) (n * 2 + 1)) as ps.
  intro ps; revert l l' H.
  assert (Gen : forall acc acc', Forall2 (fun a b => veqv a (vadd b t)) acc acc' ->
    forall l l', Forall2 (fun a b => veqv a (vadd b t)) l l' ->
    Forall2 (fun a b => veqv a (vadd b t))
      (fold_left (fun coordinates_periodic_xy '(ix, iy) =>
         let x := (Z.of_nat ix - Z.of_nat n)%Z in
         let y := (Z.of_nat iy - Z.of_nat n)%Z in
         if negb (Z.eqb x 0) || negb (Z.eqb y 0)
         then coordinates_periodic_xy ++ map (fun xyz => vadd xyz (xy_shift cell x y)) l
         else coordinates_periodic_xy) ps acc)
      (fold_left (fun coordinates_periodic_xy '(ix, iy) =>
         let x := (Z.of_nat ix - Z.of_nat n)%Z in
         let y := (Z.of_nat iy - Z.of_nat n)%Z in
         if negb (Z.eqb x 0) || negb (Z.eqb y 0)
         then coordinates_periodic_xy ++ map (fun xyz => vadd xyz (xy_shift cell x y)) l'
         else coordinates_periodic_xy) ps acc')).
  { induction ps as [|[ix iy] ps IH]; intros acc acc' Hacc l l' Hl; simpl; [exact Hacc|].
    apply IH; [|exact Hl].
    destruct (negb _ || negb _); [|exact Hacc].
    apply Forall2_app; [exact Hacc|].
    apply Forall2_map_same; [|exact Hl].
    intros a b [Hx [Hy Hz]]; unfold veqv in *; simpl in *.
    rewrite Hx, Hy, Hz; repeat split; ring. }
  intros l l' H; exact (Gen l l' H l l' H).
Qed.

Lemma neighbour_list_translate (cell : simulation_cell) (coordinates : list vec3)
    (c : Q) (t : vec3) :
  z3 t == 0 ->
  generate_neighbour_list cell (map (fun p => vadd p t) coordinates) c
  = generate_neighbour_list cell coordinates c.
Proof.
  intro Ht; unfold generate_neighbour_list.
  pose proof (wrap_translate cell coordinates 80 t Ht) as Hw.
  pose proof (periodic_images_translate cell t 1 _ _ Hw) as Hi.
  refine (map_Forall2_eq _ _ _ _ _ _ Hw); intros r r' Hr; cbv beta.
  refine (filter_length_Forall2 _ _ _ _ _ _ Hi); intros a a' Ha.
  apply norm_lt_compat.
  destruct Hr as [Hr1 [Hr2 Hr3]]; destruct Ha as [Ha1 [Ha2 Ha3]]; unfold veqv; simpl in *.
  rewrite Hr1, Hr2, Hr3, Ha1, Ha2, Ha3; repeat split; ring.
Qed.

(** X17: the neighbour counts, and so the outcome of
    [check_min_neighbours], are unchanged when every particle is shifted by
    the same horizontal vector [t] ([t_z = 0]): they depend only on the
    relative positions of the particles and their xy images. *)
Theorem neighbour_check_horizontal_translation (cell : simulation_cell)
    (coordinates : list vec3) (deposition_type : string) (c : Q) (t : vec3) :
  z3 t == 0 ->
  generate_neighbour_list cell (map (fun p => vadd p t) coordinates) c
  = generate_neighbour_list cell coordinates c /\
  check_min_neighbours cell (map (fun p => vadd p t) coordinates) deposition_type c
  = check_min_neighbours cell coordinates deposition_type c.
Proof.
  intro Ht; split; [exact (neighbour_list_translate cell coordinates c t Ht)|].
  unfold check_min_neighbours; rewrite (neighbour_list_translate cell coordinates c t Ht).
  destruct coordinates; reflexivity.
Qed.

Lemma filter_length_split {A} (f : A -> bool) (l : list A) :
  (length (filter f l) + length (filter (fun x => negb (f x)) l) = length l)%nat.
Proof. induction l as [|a l IH]; simpl; [reflexivity|]; destruct (f a); simpl; lia. Qed.

Lemma ndindex_length (a b : nat) : length (ndindex a b) = (a * b)%nat.
Proof.
  unfold ndindex; rewrite <- (length_seq a 0) at 2; generalize (seq 0 a) as l.
  induction l as [|i l IH]; simpl; [reflexivity|].
  rewrite length_app, length_map, length_seq, IH; lia.
Qed.

Lemma seq_count_eq (n b len : nat) :
  length (filter (fun j => Nat.eqb j n) (seq b len))
  = (if (b <=? n) && (n <? b + len) then 1 else 0)%nat.
Proof.
  revert b; induction len as [|len IH]; intro b; cbn [seq filter].
  - destruct (Nat.leb_spec b n), (Nat.ltb_spec n (b + 0)); simpl; reflexivity || lia.
  - pose proof (IH (S b)) as IHb.
    destruct (Nat.eqb_spec b n); cbn [length]; rewrite IHb;
    destruct (Nat.leb_spec b n), (Nat.ltb_spec n (b + S len)),
      (Nat.leb_spec (S b) n), (Nat.ltb_spec n (S b + len)); simpl; lia.
Qed.

Lemma centre_pair_cond (n i j : nat) :
  negb (negb (Z.eqb (Z.of_nat i - Z.of_nat n) 0) || negb (Z.eqb (Z.of_nat j - Z.of_nat n) 0))
  = (Nat.eqb i n && Nat.eqb j n).
Proof.
  destruct (Z.eqb_spec (Z.of_nat i - Z.of_nat n) 0), (Z.eqb_spec (Z.of_nat j - Z.of_nat n) 0),
    (Nat.eqb_spec i n), (Nat.eqb_spec j n); simpl; reflexivity || lia.
Qed.

Lemma ndindex_centre_count (n m : nat) :
  (n < m)%nat ->
  length (filter (fun '(ix, iy) =>
    negb (negb (Z.eqb (Z.of_nat ix - Z.of_nat n) 0) || negb (Z.eqb (Z.of_nat iy - Z.of_nat n) 0)))
    (ndindex m m)) = 1%nat.
Proof.
  intro Hn; unfold ndindex.
  assert (Inner : forall i l, length (filter (fun '(ix, iy) =>
    negb (negb (Z.eqb (Z.of_nat ix - Z.of_nat n) 0) || negb (Z.eqb (Z.of_nat iy - Z.of_nat n) 0)))
    (map (fun j => (i, j)) l))
    = (if Nat.eqb i n then length (filter (fun j => Nat.eqb j n) l) else 0)%nat).
  { intros i l; induction l as [|j l IH]; cbn [map filter];
      [destruct (Nat.eqb i n); reflexivity|].
    rewrite centre_pair_cond; destruct (Nat.eqb i n) eqn:Ei, (Nat.eqb j n); cbn [andb length];
      rewrite IH; reflexivity. }
  assert (Outer : forall l, length (filter (fun '(ix, iy) =>
    negb (negb (Z.eqb (Z.of_nat ix - Z.of_nat n) 0) || negb (Z.eqb (Z.of_nat iy - Z.of_nat n) 0)))
    (flat_map (fun i => map (fun j => (i, j)) (seq 0 m)) l))
    = (length (filter (fun i => Nat.eqb i n) l) * length (filter (fun j => Nat.eqb j n) (seq 0 m)))%nat).
  { induction l as [|i l IH]; cbn [flat_map]; [reflexivity|].
    rewrite filter_app, length_app, Inner, IH; cbn [filter].
    destruct (Nat.eqb i n); cbn [length]; lia. }
  rewrite Outer, seq_count_eq.
  destruct (Nat.leb_spec 0 n), (Nat.ltb_spec n (0 + m)); simpl; lia.
Qed.

Lemma fold_append_length {A B} (F : list A -> B -> list A) (cond : B -> bool)
    (g : B -> list A) (len : nat) (ps : list B) (acc : list A) :
  (forall acc p, F acc p = if cond p then acc ++ g p else acc) ->
  (forall p, length (g p) = len) ->
  (exists rest, fold_left F ps acc = acc ++ rest) /\
  length (fold_left F ps acc) = (length acc + length (filter cond ps) * len)%nat.
Proof.
  intros HF Hg; revert acc; induction ps as [|p ps IH]; intro acc; cbn [fold_left filter length].
  - split; [exists []; rewrite app_nil_r; reflexivity | lia].
  - destruct (IH (F acc p)) as [[rest Hrest] Hlen]; rewrite HF in Hrest, Hlen |- *.
    destruct (cond p).
    + split; [exists (g p ++ rest); rewrite Hrest, app_assoc; reflexivity|].
      rewrite Hlen, length_app, Hg; cbn [length]; lia.
    + split; [exists rest; exact Hrest | exact Hlen].
Qed.

Lemma fold_append_in {A B} (F : list A -> B -> list A) (cond : B -> bool)
    (g : B -> list A) (ps : list B) (acc : list A) (q : A) :
  (forall acc p, F acc p = if cond p then acc ++ g p else acc) ->
  In q (fold_left F ps acc) -> In q acc \/ exists p, In p ps /\ cond p = true /\ In q (g p).
Proof.
  intros HF; revert acc; induction ps as [|p ps IH]; intros acc H; cbn [fold_left] in H;
    [left; exact H|].
  destruct (IH _ H) as [Hq|[p' [Hp' Hq]]]; [|right; exists p'; split; [right|]; assumption].
  rewrite HF in Hq; destruct (cond p) eqn:Ec; [|left; exact Hq].
  apply in_app_or in Hq; destruct Hq as [Hq|Hq]; [left; exact Hq|].
  right; exists p; split; [left; reflexivity | split; assumption].
Qed.

(** X18: [generate_periodic_images_xy] with [num_copies = n] returns
    [(2n+1)^2] copies of the coordinates: the coordinates themselves first,
    and only points [p + i*x_vector + j*y_vector] with [p] a coordinate,
    [-n <= i, j <= n] and [(i, j) <> (0, 0)] after them. *)
Theorem generate_periodic_images_xy_general (cell : simulation_cell)
    (coordinates : list vec3) (n : nat) :
  let imgs := generate_periodic_images_xy cell coordinates n in
  length imgs = ((2 * n + 1) * (2 * n + 1) * length coordinates)%nat /\
  firstn (length coordinates) imgs = coordinates /\
  (forall q, In q imgs -> In q coordinates \/
     exists p i j, In p coordinates /\ (- Z.of_nat n <= i <= Z.of_nat n)%Z /\
       (- Z.of_nat n <= j <= Z.of_nat n)%Z /\ (i, j) <> (0%Z, 0%Z) /\
       q = vadd p (xy_shift cell i j)).
Proof.
  intro imgs.
  set (cond := fun '(ix, iy) =>
         negb (Z.eqb (Z.of_nat ix - Z.of_nat n) 0) || negb (Z.eqb (Z.of_nat iy - Z.of_nat n) 0)).
  set (g := fun '(ix, iy) =>
         map (fun xyz => vadd xyz (xy_shift cell (Z.of_nat ix - Z.of_nat n)
                                              (Z.of_nat iy - Z.of_nat n))) coordinates).
  assert (HF : forall acc (p : nat * nat),
    (fun coordinates_periodic_xy '(ix, iy) =>
       let x := (Z.of_nat ix - Z.of_nat n)%Z in
       let y := (Z.of_nat iy - Z.of_nat n)%Z in
       if negb (Z.eqb x 0) || negb (Z.eqb y 0)
       then coordinates_periodic_xy
              ++ map (fun xyz => vadd xyz (xy_shift cell x y)) coordinates
       else coordinates_periodic_xy) acc p = if cond p then acc ++ g p else acc).
  { intros acc [ix iy]; reflexivity. }
  assert (Hg : forall p, length (g p) = length coordinates).
  { intros [ix iy]; apply length_map. }
  destruct (fold_append_length _ cond g _ (ndindex (n * 2 + 1) (n * 2 + 1)) coordinates HF Hg)
    as [[rest Hrest] Hlen]; cbv zeta in Hrest, Hlen.
  split; [|split].
  - unfold imgs, generate_periodic_images_xy; cbv zeta; rewrite Hlen.
    pose proof (filter_length_split cond (ndindex (n * 2 + 1) (n * 2 + 1))) as Hs.
    rewrite ndindex_length in Hs.
    assert (Hc : length (filter (fun x => negb (cond x)) (ndindex (n * 2 + 1) (n * 2 + 1)))
                 = 1%nat).
    { pose proof (ndindex_centre_count n (n * 2 + 1) ltac:(lia)) as E1.
      etransitivity; [|exact E1].
      f_equal; apply filter_ext; intros [ix iy]; reflexivity. }
    rewrite Hc in Hs.
    replace (length (filter cond (ndindex (n * 2 + 1) (n * 2 + 1))))
      with ((n * 2 + 1) * (n * 2 + 1) - 1)%nat by lia.
    replace (2 * n + 1)%nat with (n * 2 + 1)%nat by lia.
    assert (1 <= (n * 2 + 1) * (n * 2 + 1))%nat by nia.
    nia.
  - unfold imgs, generate_periodic_images_xy; cbv zeta; rewrite Hrest, firstn_app, Nat.sub_diag,
      firstn_all; simpl; apply app_nil_r.
  - intros q Hq; unfold imgs, generate_periodic_images_xy in Hq; cbv zeta in Hq.
    destruct (fold_append_in _ cond g _ coordinates q HF Hq) as [H|[[ix iy] [Hp [Hc Hq']]]];
      [left; exact H | right].
    unfold ndindex in Hp; apply in_flat_map in Hp; destruct Hp as [i [Hi Hp]].
    apply in_map_iff in Hp; destruct Hp as [j [Hij Hj]]; injection Hij as -> ->.
    apply in_seq in Hi; apply in_seq in Hj.
    apply in_map_iff in Hq'; destruct Hq' as [p [<- Hp]].
    exists p, (Z.of_nat ix - Z.of_nat n)%Z, (Z.of_nat iy - Z.of_nat n)%Z.
    split; [exact Hp|]; split; [lia|]; split; [lia|]; split; [|reflexivity].
    unfold cond in Hc; intro E; injection E as E1 E2.
    rewrite E1, E2 in Hc; discriminate.
Qed.

(** X19: the status file written by [Deposition.write_status] reads back,
    with [Deposition.read_status], the three counters and the pickle
    location of the written status; a missing status file reads as
    [None]. *)
Theorem Deposition_status_round_trip (now : Z) (status : DepositionStatus) :
  Deposition_read_status (Some (Deposition_write_status now status))
  = Ok (Some (ds_iteration_number status, ds_sequential_failures status,
              ds_total_failures status, YStr (ds_pickle_location status))) /\
  Deposition_read_status None = Ok None.
Proof.
  split; [|reflexivity].
  unfold Deposition_read_status, Deposition_write_status.
  match goal with |- context [yaml_safe_load (yaml_dump ?d)] =>
    destruct (yaml_round_trip d) as [d' [Hload Hkeys]] end.
  rewrite Hload, !Hkeys; reflexivity.
Qed.

(** X20: for a positive particle mass, a draw of
    [GaussianVelocityDistribution] with mean [0] is the draw of
    [physics.velocity_from_normal_distribution]; for a zero mass the
    distribution raises [ZeroDivisionError] where
    [velocity_from_normal_distribution] returns [0] without drawing. *)
Theorem GaussianVelocityDistribution_matches_physics (gas_temperature particle_mass : Q) (k : nat) :
  (0 < particle_mass ->
   GaussianVelocityDistribution_get_single_velocity gas_temperature particle_mass 0 k
   = velocity_from_normal_distribution gas_temperature particle_mass k) /\
  (particle_mass == 0 ->
   GaussianVelocityDistribution_get_single_velocity gas_temperature particle_mass 0 k
   = Raise ZeroDivisionError /\
   velocity_from_normal_distribution gas_temperature particle_mass k = Ok (0, k)).
Proof.
  unfold GaussianVelocityDistribution_get_single_velocity, velocity_from_normal_distribution.
  split; intro Hm.
  - assert (E1 : Qeq_bool particle_mass 0 = false).
    { apply not_true_is_false; intro E; apply Qeq_bool_eq in E.
      rewrite E in Hm; discriminate. }
    assert (E2 : Qlt_bool 0 particle_mass = true) by (apply Qlt_bool_iff; exact Hm).
    rewrite E1, E2; reflexivity.
  - assert (E1 : Qeq_bool particle_mass 0 = true) by (apply Qeq_bool_iff; exact Hm).
    assert (E2 : Qlt_bool 0 particle_mass = false).
    { apply Qlt_bool_false; rewrite Hm; apply Qle_refl. }
    rewrite E1, E2; split; reflexivity.
Qed.

(** X21: [GaussianVelocityDistribution.get_velocity] raises
    [ZeroDivisionError] for a zero mass and [ValueError] when
    [k_B T / m] is negative, before any draw; otherwise it takes exactly
    three consecutive draws from the same normal distribution, centred on
    [mean] with variance [k_B T / m], for [vx], [vy] and [vz]. *)
Theorem GaussianVelocityDistribution_get_velocity_spec (gas_temperature particle_mass mean : Q)
    (k : nat) :
  let variance := BoltzmannConstant * gas_temperature / particle_mass in
  (particle_mass == 0 ->
   GaussianVelocityDistribution_get_velocity gas_temperature particle_mass mean k
   = Raise ZeroDivisionError) /\
  (~ particle_mass == 0 -> variance < 0 ->
   GaussianVelocityDistribution_get_velocity gas_temperature particle_mass mean k
   = Raise ValueError) /\
  (~ particle_mass == 0 -> 0 <= variance ->
   GaussianVelocityDistribution_get_velocity gas_temperature particle_mass mean k
   = Ok (V3 (draw_normal k mean variance) (draw_normal (S k) mean variance)
            (draw_normal (S (S k)) mean variance), S (S (S k)))).
Proof.
  cbv zeta; unfold GaussianVelocityDistribution_get_velocity,
    GaussianVelocityDistribution_get_single_velocity, bind, ret, raise.
  split; [|split].
  - intro Hm; assert (E1 : Qeq_bool particle_mass 0 = true) by (apply Qeq_bool_iff; exact Hm).
    rewrite E1; reflexivity.
  - intros Hm Hv.
    assert (E1 : Qeq_bool particle_mass 0 = false)
      by (apply not_true_is_false; intro E; apply Qeq_bool_eq in E; contradiction).
    assert (E2 : Qlt_bool (BoltzmannConstant * gas_temperature / particle_mass) 0 = true)
      by (apply Qlt_bool_iff; exact Hv).
    rewrite E1, E2; reflexivity.
  - intros Hm Hv.
    assert (E1 : Qeq_bool particle_mass 0 = false)
      by (apply not_true_is_false; intro E; apply Qeq_bool_eq in E; contradiction).
    assert (E2 : Qlt_bool (BoltzmannConstant * gas_temperature / particle_mass) 0 = false)
      by (apply Qlt_bool_false; exact Hv).
    rewrite E1, E2; reflexivity.
Qed.

Lemma masses_of_length (molecule_elements : list string) (atomic_masses : list Q) :
  masses_of molecule_elements = Ok atomic_masses ->
  length atomic_masses = length molecule_elements.
Proof.
  revert atomic_masses; induction molecule_elements as [|e rest IH]; intros am H; simpl in H.
  - injection H as <-; reflexivity.
  - destruct (element_mass e) as [m| |]; simpl in H; try discriminate.
    destruct (masses_of rest) as [ms| |]; simpl in H; try discriminate.
    injection H as <-; simpl; f_equal; apply IH; reflexivity.
Qed.

Lemma weighted_sum_shift (f : vec3 -> Q) (ms : list Q) (ps : list vec3) (t : vec3) :
  (forall a b, f (vadd a b) == f a + f b) ->
  (forall s a, f (vscale s a) == s * f a) ->
  (length ms <= length ps)%nat ->
  sum_component f (map (fun '(mass, coordinate) => vscale mass coordinate)
                     (combine ms (map (fun p => vadd p t) ps)))
  == sum_component f (map (fun '(mass, coordinate) => vscale mass coordinate) (combine ms ps))
     + fold_left Qplus ms 0 * f t.
Proof.
  intros Hadd Hs; revert ps; induction ms as [|m ms IH]; intros [|p ps] Hl; simpl in Hl;
    try lia; try (unfold sum_component; simpl; ring).
  unfold sum_component in *; cbn [combine map fold_right fold_left].
  rewrite (IH ps ltac:(lia)), (fold_Qplus_acc ms (0 + m)), !Hs, Hadd; ring.
Qed.

Lemma get_centre_of_mass_shift (coordinates : list vec3) (elements : list string)
    (t c : vec3) (masses : list Q) :
  (length elements <= length coordinates)%nat ->
  get_centre_of_mass coordinates elements = Ok (Some c, masses) ->
  exists c', get_centre_of_mass (map (fun p => vadd p t) coordinates) elements
             = Ok (Some c', masses) /\ veqv c' (vadd c t).
Proof.
  intros Hlen H; unfold get_centre_of_mass in *.
  destruct (masses_of elements) as [am| |] eqn:Em; cbn [rbind] in H |- *; try discriminate.
  pose proof (masses_of_length _ _ Em) as Hla.
  cbv zeta in H |- *.
  set (ms := map (fun m => AtomicMassUnit_kg * m) am) in *.
  assert (Hms : (length ms <= length coordinates)%nat) by (unfold ms; rewrite length_map; lia).
  destruct (map (fun '(mass, coordinate) => vscale mass coordinate) (combine ms coordinates))
    as [|q qs] eqn:E0; [discriminate|].
  cbv iota in H; rewrite <- E0 in H.
  destruct (Qeq_bool (fold_left Qplus ms 0) 0) eqn:Et; [discriminate|].
  injection H as Hc Hm; subst c masses.
  destruct (map (fun '(mass, coordinate) => vscale mass coordinate)
              (combine ms (map (fun p => vadd p t) coordinates))) as [|q' qs'] eqn:E1.
  { exfalso. apply (f_equal (@length _)) in E0, E1.
    rewrite length_map, length_combine in E0, E1; rewrite length_map in E1.
    simpl in E0, E1; lia. }
  cbv iota; rewrite <- E1.
  eexists; split; [reflexivity|].
  apply Qeq_bool_neq in Et.
  unfold veqv, vsum; cbn [vscale vadd x3 y3 z3].
  rewrite !(vsum_component x3 _ _ (fun a b => Qeq_refl _)),
          !(vsum_component y3 _ _ (fun a b => Qeq_refl _)),
          !(vsum_component z3 _ _ (fun a b => Qeq_refl _)).
  rewrite !(weighted_sum_shift x3 _ _ _ (fun a b => Qeq_refl _) (fun s a => Qeq_refl _) Hms),
          !(weighted_sum_shift y3 _ _ _ (fun a b => Qeq_refl _) (fun s a => Qeq_refl _) Hms),
          !(weighted_sum_shift z3 _ _ _ (fun a b => Qeq_refl _) (fun s a => Qeq_refl _) Hms).
  cbn [x3 y3 z3]; repeat split; field; exact Et.
Qed.

(** X22: for a molecule with no more elements than coordinates,
    [get_centre_of_mass] moves with the molecule: translating every
    coordinate by [t] translates the centre of mass by [t] and keeps the
    masses. *)
Theorem get_centre_of_mass_translation (coordinates : list vec3) (elements : list string)
    (t c : vec3) (masses : list Q) :
  (length elements <= length coordinates)%nat ->
  get_centre_of_mass coordinates elements = Ok (Some c, masses) ->
  exists c', get_centre_of_mass (map (fun p => vadd p t) coordinates) elements
             = Ok (Some c', masses) /\ veqv c' (vadd c t).
Proof.
  exact (get_centre_of_mass_shift coordinates elements t c masses).
Qed.

Lemma weighted_abs_sum_shift (f : vec3 -> Q) (ms : list Q) (ps : list vec3) (t c c' : vec3) :
  (forall s a b, veqv a b -> f (vscale s (vabs a)) == f (vscale s (vabs b))) ->
  veqv c' (vadd c t) ->
  sum_component f (map (fun '(mass, distance) => vscale mass (vabs distance))
     (combine ms (map (fun coordinate => vsub coordinate c') (map (fun p => vadd p t) ps))))
  == sum_component f (map (fun '(mass, distance) => vscale mass (vabs distance))
     (combine ms (map (fun coordinate => vsub coordinate c) ps))).
Proof.
  intros Hf Hc; revert ps; induction ms as [|m ms IH]; intros [|p ps];
    unfold sum_component in *; cbn [combine map fold_right]; try reflexivity.
  rewrite (IH ps); apply Qplus_comp; [apply Hf|reflexivity].
  unfold veqv in *; destruct Hc as [H1 [H2 H3]]; cbn [vsub vadd x3 y3 z3] in *.
  rewrite H1, H2, H3; repeat split; ring.
Qed.

Lemma vabs_component_compat :
  (forall s a b, veqv a b -> x3 (vscale s (vabs a)) == x3 (vscale s (vabs b))) /\
  (forall s a b, veqv a b -> y3 (vscale s (vabs a)) == y3 (vscale s (vabs b))) /\
  (forall s a b, veqv a b -> z3 (vscale s (vabs a)) == z3 (vscale s (vabs b))).
Proof.
  repeat split; intros s a b [H1 [H2 H3]]; cbn [vscale vabs x3 y3 z3];
    [rewrite H1 | rewrite H2 | rewrite H3]; reflexivity.
Qed.

(** X23: for a molecule with no more elements than coordinates, the
    result of [get_moment_of_inertia] does not change when every
    coordinate is translated by the same vector [t]. *)
Theorem get_moment_of_inertia_translation (coordinates : list vec3) (elements : list string)
    (t moment : vec3) :
  (length elements <= length coordinates)%nat ->
  get_moment_of_inertia coordinates elements = Ok (Some moment) ->
  exists moment', get_moment_of_inertia (map (fun p => vadd p t) coordinates) elements
             = Ok (Some moment') /\ veqv moment' moment.
Proof.
  intros Hlen H; unfold get_moment_of_inertia in *.
  destruct (get_centre_of_mass coordinates elements) as [[[c|] ms]| |] eqn:Ec;
    cbn [rbind] in H; try discriminate.
  destruct (get_centre_of_mass_shift coordinates elements t c ms Hlen Ec) as [c' [Ec' Hc']].
  rewrite Ec'; cbn [rbind]; cbv zeta in H |- *.
  destruct (combine ms (map (fun coordinate => vsub coordinate c) coordinates))
    as [|d ds] eqn:E0; [discriminate|].
  cbv iota in H; rewrite <- E0 in H; injection H as HI; subst moment.
  destruct (combine ms (map (fun coordinate => vsub coordinate c')
                          (map (fun p => vadd p t) coordinates))) as [|d' ds'] eqn:E1.
  { exfalso; apply (f_equal (@length _)) in E0, E1.
    rewrite length_combine, !length_map in E0, E1; rewrite ?length_map in E1; simpl in E0, E1; lia. }
  cbv iota; rewrite <- E1; eexists; split; [reflexivity|].
  destruct vabs_component_compat as [Hx [Hy Hz]].
  unfold veqv, vsum.
  rewrite !(vsum_component x3 _ _ (fun a b => Qeq_refl _)),
          !(vsum_component y3 _ _ (fun a b => Qeq_refl _)),
          !(vsum_component z3 _ _ (fun a b => Qeq_refl _)).
  rewrite (weighted_abs_sum_shift x3 ms coordinates t c c' Hx Hc'),
          (weighted_abs_sum_shift y3 ms coordinates t c c' Hy Hc'),
          (weighted_abs_sum_shift z3 ms coordinates t c c' Hz Hc').
  repeat split; reflexivity.
Qed.

Lemma legacy_generate_neighbour_list_eq (coordinates : list vec3) (cell : simulation_cell)
    (c : Q) :
  Legacy_structural_analysis.generate_neighbour_list coordinates cell c
  = generate_neighbour_list cell coordinates c.
Proof.
  assert (Hw : Legacy_structural_analysis.wrap_periodic_coordinates_in_z coordinates cell
               = wrap_periodic_coordinates_in_z cell coordinates 80).
  { unfold Legacy_structural_analysis.wrap_periodic_coordinates_in_z,
      wrap_periodic_coordinates_in_z; cbv zeta.
    apply map_ext; intro xyz.
    rewrite (Qlt_bool_compat ((z_max cell - z_min cell) * (8 # 10))
               ((z_max cell - z_min cell) * (80 / 100)) (z3 xyz) (z3 xyz));
      [reflexivity | apply Qmult_comp; [reflexivity | unfold Qeq; reflexivity] | reflexivity]. }
  unfold Legacy_structural_analysis.generate_neighbour_list, generate_neighbour_list; cbv zeta.
  rewrite Hw; reflexivity.
Qed.

(** X24: the earlier [check_min_neighbours] of src/src/structural_analysis.py
    computes the same neighbour counts as the current one and gives the
    same outcome for the [monatomic] and [diatomic] deposition types; an
    empty coordinate list raises [ValueError] for every type (the numpy
    broadcast, before [min_neighbours] is read); for a non-empty list and
    every other type, [molecule] included, it raises [NameError]
    ([min_neighbours] is unbound). *)
Theorem legacy_check_min_neighbours_agrees (deposition_type : string)
    (bonding_distance_cutoff : Q) (cell : simulation_cell) (coordinates : list vec3) :
  Legacy_structural_analysis.generate_neighbour_list coordinates cell bonding_distance_cutoff
  = generate_neighbour_list cell coordinates bonding_distance_cutoff /\
  (deposition_type = "monatomic"%string \/ deposition_type = "diatomic"%string ->
   Legacy_structural_analysis.check_min_neighbours deposition_type bonding_distance_cutoff
     cell coordinates
   = check_min_neighbours cell coordinates deposition_type bonding_distance_cutoff) /\
  (coordinates = [] ->
   Legacy_structural_analysis.check_min_neighbours deposition_type bonding_distance_cutoff
     cell coordinates = Raise ValueError) /\
  (coordinates <> [] ->
   deposition_type <> "monatomic"%string -> deposition_type <> "diatomic"%string ->
   Legacy_structural_analysis.check_min_neighbours deposition_type bonding_distance_cutoff
     cell coordinates = Raise NameError).
Proof.
  pose proof (legacy_generate_neighbour_list_eq coordinates cell bonding_distance_cutoff) as Hn.
  split; [exact Hn|split].
  - intros [-> | ->]; unfold Legacy_structural_analysis.check_min_neighbours,
      check_min_neighbours; cbv zeta; rewrite Hn; destruct coordinates; reflexivity.
  - split; [intros ->; reflexivity|].
    intros Hne H1 H2; unfold Legacy_structural_analysis.check_min_neighbours; cbv zeta.
    destruct coordinates as [|p ps]; [contradiction|].
    destruct (String.eqb deposition_type "monatomic") eqn:E1;
      [apply String.eqb_eq in E1; contradiction|].
    destruct (String.eqb deposition_type "diatomic") eqn:E2;
      [apply String.eqb_eq in E2; contradiction|].
    reflexivity.
Qed.

Lemma masses_of_values (molecule_elements : list string) (atomic_masses : list Q) :
  masses_of molecule_elements = Ok atomic_masses ->
  Forall (fun m => exists e, In e molecule_elements /\ atomic_mass e = Some m) atomic_masses.
Proof.
  revert atomic_masses; induction molecule_elements as [|e rest IH]; intros am H; simpl in H.
  - injection H as <-; constructor.
  - unfold element_mass in H.
    destruct (atomic_mass e) as [m|] eqn:Ee; simpl in H; try discriminate.
    destruct (masses_of rest) as [ms| |]; simpl in H; try discriminate.
    injection H as <-; constructor.
    + exists e; split; [left; reflexivity | exact Ee].
    + eapply Forall_impl; [|apply IH; reflexivity].
      intros m' [e' [Hin He']]; exists e'; split; [right; exact Hin | exact He'].
Qed.

Lemma weighted_sum_bounds (f : vec3 -> Q) (ms : list Q) (ps : list vec3) (lo hi : Q) :
  (forall s a, f (vscale s a) == s * f a) ->
  Forall (fun m => 0 < m) ms ->
  (length ms <= length ps)%nat ->
  (forall p, In p ps -> lo <= f p <= hi) ->
  lo * fold_left Qplus ms 0
    <= sum_component f (map (fun '(mass, coordinate) => vscale mass coordinate) (combine ms ps))
  /\ sum_component f (map (fun '(mass, coordinate) => vscale mass coordinate) (combine ms ps))
    <= hi * fold_left Qplus ms 0.
Proof.
  intros Hs Hpos; revert ps; induction Hpos as [|m ms Hm Hpos IH]; intros [|p ps] Hl Hb;
    simpl in Hl; try lia.
  - unfold sum_component; simpl; rewrite !Qmult_0_r; split; apply Qle_refl.
  - unfold sum_component; simpl; rewrite !Qmult_0_r; split; apply Qle_refl.
  - destruct (IH ps ltac:(lia) (fun q Hq => Hb q (or_intror Hq))) as [IH1 IH2].
    destruct (Hb p (or_introl eq_refl)) as [Hp1 Hp2].
    unfold sum_component in *; cbn [combine map fold_right fold_left].
    rewrite (fold_Qplus_acc ms (0 + m)), Hs.
    assert (lo * m <= m * f p) by (rewrite Qmult_comm; apply Qmult_le_l; [exact Hm | exact Hp1]).
    assert (m * f p <= hi * m) by (rewrite (Qmult_comm hi); apply Qmult_le_l; [exact Hm | exact Hp2]).
    split.
    + setoid_replace (lo * (0 + m + fold_left Qplus ms 0))
        with (lo * m + lo * fold_left Qplus ms 0) by ring.
      apply Qplus_le_compat; assumption.
    + setoid_replace (hi * (0 + m + fold_left Qplus ms 0))
        with (hi * m + hi * fold_left Qplus ms 0) by ring.
      apply Qplus_le_compat; assumption.
Qed.

Lemma fold_Qplus_pos (ms : list Q) :
  Forall (fun m => 0 < m) ms -> ms <> [] -> 0 < fold_left Qplus ms 0.
Proof.
  intros Hpos Hne; induction Hpos as [|m ms Hm Hpos IH]; [congruence|].
  simpl; rewrite fold_Qplus_acc.
  destruct ms as [|m' ms'].
  - simpl; setoid_replace (0 + m + 0) with m by ring; exact Hm.
  - apply Qlt_le_trans with (0 + m + 0); [setoid_replace (0 + m + 0) with m by ring; exact Hm|].
    apply Qplus_le_compat; [apply Qle_refl | apply Qlt_le_weak; apply IH; discriminate].
Qed.

(** X25: when every element of the molecule has a positive atomic mass and
    there are no more elements than coordinates, each component of the
    centre of mass returned by [get_centre_of_mass] lies between the
    smallest and the largest value of that component over the atoms. *)
Theorem get_centre_of_mass_in_bounds (coordinates : list vec3) (elements : list string)
    (c : vec3) (masses : list Q) :
  (length elements <= length coordinates)%nat ->
  (forall e m, In e elements -> atomic_mass e = Some m -> 0 < m) ->
  get_centre_of_mass coordinates elements = Ok (Some c, masses) ->
  forall f, f = x3 \/ f = y3 \/ f = z3 ->
  forall lo hi, (forall p, In p coordinates -> lo <= f p <= hi) -> lo <= f c <= hi.
Proof.
  intros Hlen Hmass H f Hf lo hi Hb; unfold get_centre_of_mass in H.
  destruct (masses_of elements) as [am| |] eqn:Em; cbn [rbind] in H; try discriminate.
  pose proof (masses_of_length _ _ Em) as Hla.
  pose proof (masses_of_values _ _ Em) as Hval.
  cbv zeta in H.
  set (ms := map (fun m => AtomicMassUnit_kg * m) am) in *.
  assert (Hms : (length ms <= length coordinates)%nat) by (unfold ms; rewrite length_map; lia).
  assert (Hpos : Forall (fun m => 0 < m) ms).
  { unfold ms; apply Forall_map; eapply Forall_impl; [|exact Hval].
    intros m [e [Hin He]]; apply Qmult_lt_0_compat; [reflexivity | exact (Hmass e m Hin He)]. }
  destruct (map (fun '(mass, coordinate) => vscale mass coordinate) (combine ms coordinates))
    as [|q qs] eqn:E0; [discriminate|].
  cbv iota in H; rewrite <- E0 in H.
  destruct (Qeq_bool (fold_left Qplus ms 0) 0) eqn:Et; [discriminate|].
  injection H as Hc _; subst c.
  assert (Hne : ms <> []) by (intro Hnil; rewrite Hnil in E0; discriminate).
  pose proof (fold_Qplus_pos ms Hpos Hne) as HT.
  assert (Hsf : forall s a, f (vscale s a) == s * f a)
    by (destruct Hf as [-> | [-> | ->]]; intros; reflexivity).
  assert (Haf : forall a b, f (vadd a b) == f a + f b)
    by (destruct Hf as [-> | [-> | ->]]; intros; reflexivity).
  assert (Hf0 : f (V3 0 0 0) == 0) by (destruct Hf as [-> | [-> | ->]]; reflexivity).
  destruct (weighted_sum_bounds f ms coordinates lo hi Hsf Hpos Hms Hb) as [B1 B2].
  rewrite Hsf; unfold vsum; rewrite (vsum_component f _ _ Haf), Hf0, Qplus_0_l, Qmult_comm.
  split.
  - apply Qle_shift_div_l; [exact HT | exact B1].
  - apply Qle_shift_div_r; [exact HT | exact B2].
Qed.

End Deposition_model.

(** * Instances of the claims *)

(** C1, witness: with every normal draw 0 and minimum velocity 1, all
    10000 attempts are rejected and the sampler raises. *)
Lemma random_velocity_spec_witness :
  random_velocity (const_normal 0) 300 1 1 10000 0%nat = Raise ValueError.
Proof.
  destruct (random_velocity_spec (const_normal 0) 300 1 1 0%nat) as [_ [_ [Hexh _]]].
  apply Hexh; [vm_compute; reflexivity | vm_compute; discriminate |].
  intros i _; vm_compute; discriminate.
Defined.

(** C1, counterexample: with a negative minimum velocity a zero draw is
    accepted, and the returned z-velocity is 0, not negative. *)
Lemma random_velocity_counterexample :
  random_velocity (const_normal 0) 300 1 (-1) 10000 0%nat = Ok (V3 0 0 0, 3%nat) /\
  ~ z3 (V3 0 0 0) < 0.
Proof. split; [vm_compute; reflexivity | vm_compute; discriminate]. Defined.



(** C4, witness: an isolated particle in the middle of the cell fails the
    monatomic check. *)
Lemma check_min_neighbours_spec_witness :
  check_min_neighbours cell10 [V3 5 5 5] "monatomic" 1 = Raise RuntimeWarning.
Proof.
  destruct (check_min_neighbours_spec cell10 [V3 5 5 5] "monatomic" 1)
    as [_ [_ [_ [_ [_ [_ Hiso]]]]]].
  apply (proj1 (Hiso (V3 5 5 5) ltac:(vm_compute; reflexivity) ltac:(
    intros j Hj; vm_compute in Hj;
    do 9 (destruct j as [|j]; [try lia; vm_compute; reflexivity|]); lia))).
  left; reflexivity.
Defined.

(** C4, counterexample: for the molecule type the same isolated particle
    passes the check; and an empty coordinate list makes the check raise
    for the monatomic type although there is no neighbour count at all. *)
Lemma check_min_neighbours_counterexample :
  check_min_neighbours cell10 [V3 5 5 5] "molecule" 1 = Ok tt /\
  generate_neighbour_list cell10 [V3 5 5 5] 1 = [1%nat] /\
  check_min_neighbours cell10 [] "monatomic" 1 = Raise ValueError /\
  generate_neighbour_list cell10 [] 1 = [].
Proof. repeat split; vm_compute; reflexivity. Defined.

(** C5, witness: a deposited particle at the lowest wrapped height fails
    the check. *)
Lemma check_bonding_at_image_spec_witness :
  check_bonding_at_image cell10 [V3 5 5 1] ["H"%string] "H" 1 = Raise RuntimeWarning.
Proof.
  destruct (check_bonding_at_image_spec cell10 [V3 5 5 1] ["H"%string] "H" 1)
    as [_ [_ Hmin]].
  apply (Hmin ltac:(vm_compute; discriminate) (V3 5 5 1)); [vm_compute; left; reflexivity|].
  intros q Hq; vm_compute in Hq; destruct Hq as [<- | []]; vm_compute; discriminate.
Defined.

(** C5, counterexample: an empty configuration raises [ValueError] though
    no deposited particle exists, and with a negative cutoff a deposited
    particle at distance 0 from the lower interface passes. *)
Lemma check_bonding_at_image_counterexample :
  check_bonding_at_image cell10 [] [] "H" 1 = Raise ValueError /\
  check_bonding_at_image cell10 [V3 5 5 1] ["H"%string] "H" (-1) = Ok tt.
Proof. split; vm_compute; reflexivity. Defined.

(** C6, witness: a particle at height 9 in a cell of height 10 is above the
    cutoff 8 and is moved down by [z_vector]. *)
Lemma wrap_and_periodic_images_xy_witness :
  nth_error (wrap_periodic_coordinates_in_z cell10 [V3 1 1 9] 80) 0
  = Some (vsub (V3 1 1 9) (z_vector cell10)).
Proof.
  destruct (wrap_and_periodic_images_xy cell10 [V3 1 1 9]) as [_ [Hw _]].
  apply (proj1 (Hw 0%nat (V3 1 1 9) eq_refl)); vm_compute; reflexivity.
Defined.

(** C7, witness: depositing one hydrogen atom onto a one-atom
    configuration gives three aligned lists of length 2. *)
Lemma append_preserves_alignment_witness :
  match append_new_coordinates_and_velocities (const_normal 1000) midpoint_uniform unit_mass
          malformed_files small_int small_float 1 (example_settings "monatomic")
          [V3 5 5 1] ["Ar"%string] [V3 0 0 0] cell10 1 0%nat with
  | Ok ((c', e', v'), _) => length c' = length e' /\ length e' = length v' /\
                            length e' = 2%nat
  | _ => False
  end.
Proof.
  destruct (append_new_coordinates_and_velocities (const_normal 1000) midpoint_uniform
              unit_mass malformed_files small_int small_float 1 (example_settings "monatomic")
              [V3 5 5 1] ["Ar"%string] [V3 0 0 0] cell10 1 0%nat)
    as [[[[c' e'] v'] k']| |] eqn:E; [| vm_compute in E; discriminate ..].
  destruct (append_preserves_alignment (const_normal 1000) midpoint_uniform unit_mass
              malformed_files small_int small_float 1 (example_settings "monatomic")
              [V3 5 5 1] ["Ar"%string] [V3 0 0 0] cell10 1 0%nat c' e' v' k'
              eq_refl eq_refl ltac:(vm_compute; discriminate) E)
    as [A1 [A2 [A3 _]]].
  split; [exact A1|]; split; [exact A2|]; exact (A3 eq_refl).
Defined.

(** C7, counterexample: a molecule file whose header announces 1 atom but
    which has two atom lines makes the elements grow by 2 and the
    velocities by 1, so the lists are no longer aligned. *)
Lemma append_preserves_alignment_counterexample :
  match append_new_coordinates_and_velocities (const_normal 1000) midpoint_uniform unit_mass
          malformed_files small_int small_float 1 (example_settings "molecule")
          [V3 5 5 1] ["Ar"%string] [V3 0 0 0] cell10 1 0%nat with
  | Ok ((c', e', v'), _) => length c' = 3%nat /\ length e' = 3%nat /\ length v' = 2%nat
  | _ => False
  end.
Proof. vm_compute; split; [reflexivity | split; reflexivity]. Defined.

(** C8, witness: of the heights 1 and 9 in a cell of height 10, only 1 is
    below the cutoff 8, and the surface height is the maximum of those. *)
Lemma get_surface_height_spec_witness :
  exists m, get_surface_height cell10 [V3 5 5 1; V3 5 5 9] 80 = Ok m /\
    forall p, In p [V3 5 5 1; V3 5 5 9] ->
      z3 p < (z_max cell10 - z_min cell10) * (80 / 100) -> z3 p <= m.
Proof.
  destruct (get_surface_height_spec cell10 [V3 5 5 1; V3 5 5 9]) as [Hbelow _].
  assert (Hlow : z3 (V3 5 5 1) < (z_max cell10 - z_min cell10) * (80 / 100))
    by (vm_compute; reflexivity).
  destruct (Hbelow (ex_intro _ (V3 5 5 1) (conj (or_introl eq_refl) Hlow)))
    as [m [Hm [_ Hmax]]].
  exists m; split; [exact Hm | exact Hmax].
Defined.

(** C8, counterexample: a non-empty configuration whose only particle is
    above the cutoff has no surface height; [max] of the empty selection
    raises. *)
Lemma get_surface_height_counterexample :
  get_surface_height cell10 [V3 5 5 9] 80 = Raise ValueError.
Proof. vm_compute; reflexivity. Defined.

(** C9, witness: with YAML files that are the mappings themselves, writing
    and reading back a status returns it. *)
Lemma Status_write_from_file_roundtrip_witness :
  Status_from_file small_int yaml_document identity_load (fun _ => EmptyString)
    (Some (snd (Status_write yaml_document identity_dump 7 example_status)))
  = Ok (fst (Status_write yaml_document identity_dump 7 example_status)).
Proof.
  exact (proj1 (Status_write_from_file_roundtrip small_int yaml_document identity_dump
                  identity_load (fun _ => EmptyString)
                  (fun d => ex_intro _ d (conj eq_refl (fun _ => eq_refl)))
                  7 example_status)).
Defined.

(** C10, witness: a single particle in the middle of the cell, with cutoff
    1, has neighbour count 1 (itself). *)
Lemma neighbour_list_counts_self_witness :
  (1 <= nth 0 (generate_neighbour_list cell10 [V3 5 5 5] 1) 0)%nat.
Proof.
  apply (proj1 (proj2 (neighbour_list_counts_self cell10 [V3 5 5 5] 1
                         ltac:(vm_compute; reflexivity)))).
  vm_compute; left; reflexivity.
Defined.

(** * Instances of the further properties *)

(** X1, witness: with midpoint draws the centre of the square of side 10 is
    accepted, at the distribution's height 3. *)
Lemma UniformPositionDistribution_get_position_inside_witness :
  match UniformPositionDistribution_get_position midpoint_uniform
          [(0, 0); (10, 0); (10, 10); (0, 10)] 3 0%nat with
  | Ok ((x, y, z'), _) =>
      contains_point [(0, 0); (10, 0); (10, 10); (0, 10)] (x, y) = true /\ z' = 3
  | _ => False
  end.
Proof.
  destruct (UniformPositionDistribution_get_position midpoint_uniform
              [(0, 0); (10, 0); (10, 10); (0, 10)] 3 0%nat)
    as [[[[x y] z'] k']| |] eqn:E; [|vm_compute in E; discriminate ..].
  exact (UniformPositionDistribution_get_position_inside midpoint_uniform _ _ _ _ _ _ _ E).
Defined.

(** X2, witness: a position drawn in [cell10] at height 3 is at height 3. *)
Lemma random_position_inside_witness :
  match random_position midpoint_uniform 1 cell10 3 0%nat with
  | Ok (v, _) => z3 v = 3
  | _ => False
  end.
Proof.
  destruct (random_position midpoint_uniform 1 cell10 3 0%nat) as [[v k']| |] eqn:E;
    [|vm_compute in E; discriminate ..].
  exact (proj1 (random_position_inside midpoint_uniform 1 cell10 3 0%nat v k' E)).
Defined.

(** X3, witness: [cell10] flattened to zero height. *)
Lemma random_position_flat_cell_witness :
  random_position midpoint_uniform 1
    {| x_min := 0; x_max := 10; y_min := 0; y_max := 10; z_min := 0; z_max := 0;
       tilt_xy := 0; x_vector := V3 10 0 0; y_vector := V3 0 10 0; z_vector := V3 0 0 0 |}
    3 0%nat = Raise ZeroDivisionError.
Proof. apply random_position_flat_cell; vm_compute; reflexivity. Defined.

(** X4, witness: a diatomic molecule of bond length 1 in [cell10]. *)
Lemma random_diatomic_position_geometry_witness :
  match random_diatomic_position midpoint_uniform 1 cell10 3 1 0%nat with
  | Ok ([p1; p2], _) => x3 p1 - x3 p2 == 1 /\ z3 p1 = 3 /\ z3 p2 = 3
  | _ => False
  end.
Proof.
  destruct (random_diatomic_position midpoint_uniform 1 cell10 3 1 0%nat)
    as [[l k']| |] eqn:E; [|vm_compute in E; discriminate ..].
  destruct (random_diatomic_position_geometry midpoint_uniform 1 cell10 3 1 0%nat l k' E)
    as [p1 [p2 [c [-> [_ [Hx [_ [Hz1 [Hz2 _]]]]]]]]].
  split; [exact Hx|]; split; assumption.
Defined.

(** X5, witness: velocities of a diatomic molecule with every normal draw
    1000. *)
Lemma random_diatomic_velocities_centre_of_mass_witness :
  match random_diatomic_velocities (const_normal 1000) 300 1 1 1 10000 0%nat with
  | Ok ([v1; v2], _) => x3 v1 = x3 v2
  | _ => False
  end.
Proof.
  destruct (random_diatomic_velocities (const_normal 1000) 300 1 1 1 10000 0%nat)
    as [[l k']| |] eqn:E; [|vm_compute in E; discriminate ..].
  destruct (random_diatomic_velocities_centre_of_mass (const_normal 1000) 300 1 1 1 10000
              0%nat l k' E) as [v1 [v2 [d [-> [Hx _]]]]].
  exact Hx.
Defined.

(** X7, witness: a two-atom molecule placed in [cell10]. *)
Lemma random_molecule_position_rigid_witness :
  match random_molecule_position midpoint_uniform 1 cell10 3 [V3 0 0 0; V3 1 1 1] 0%nat with
  | Ok (l, _) => length l = 2%nat
  | _ => False
  end.
Proof.
  destruct (random_molecule_position midpoint_uniform 1 cell10 3 [V3 0 0 0; V3 1 1 1] 0%nat)
    as [[l k']| |] eqn:E; [|vm_compute in E; discriminate ..].
  exact (proj1 (random_molecule_position_rigid midpoint_uniform 1 cell10 3 _ 0%nat l k' E)).
Defined.

(** X8, witness: one hydrogen atom deposited onto a one-atom
    configuration. *)
Lemma append_keeps_existing_particles_witness :
  match append_new_coordinates_and_velocities (const_normal 1000) midpoint_uniform unit_mass
          malformed_files small_int small_float 1 (example_settings "monatomic")
          [V3 5 5 1] ["Ar"%string] [V3 0 0 0] cell10 1 0%nat with
  | Ok ((c', e', v'), _) => exists sc se sv, c' = [V3 5 5 1] ++ sc /\
                              e' = ["Ar"%string] ++ se /\ v' = [V3 0 0 0] ++ sv
  | _ => False
  end.
Proof.
  destruct (append_new_coordinates_and_velocities (const_normal 1000) midpoint_uniform
              unit_mass malformed_files small_int small_float 1 (example_settings "monatomic")
              [V3 5 5 1] ["Ar"%string] [V3 0 0 0] cell10 1 0%nat)
    as [[[[c' e'] v'] k']| |] eqn:E; [| vm_compute in E; discriminate ..].
  destruct (append_keeps_existing_particles (const_normal 1000) midpoint_uniform unit_mass
              malformed_files small_int small_float 1 (example_settings "monatomic")
              [V3 5 5 1] ["Ar"%string] [V3 0 0 0] cell10 1 0%nat c' e' v' k' E)
    as [sc [se [sv [H1 [H2 [H3 _]]]]]].
  exists sc, se, sv; split; [exact H1|]; split; assumption.
Defined.

(** X9, witness: an isolated particle in [cell10], cutoffs 1 and 2. *)
Lemma generate_neighbour_list_monotone_witness :
  1 <= 2 /\ Forall2 le (generate_neighbour_list cell10 [V3 5 5 5] 1)
                       (generate_neighbour_list cell10 [V3 5 5 5] 2).
Proof.
  assert (Hc : 1 <= 2) by (vm_compute; discriminate).
  split; [exact Hc | exact (generate_neighbour_list_monotone cell10 [V3 5 5 5] 1 2 Hc)].
Defined.

(** X10, witness: two particles 1 apart pass the monatomic check with the
    cutoff 2, hence with the cutoff 3. *)
Lemma check_min_neighbours_monotone_witness :
  check_min_neighbours cell10 [V3 5 5 5; V3 5 5 6] "monatomic" 3 = Ok tt.
Proof.
  apply (check_min_neighbours_monotone cell10 [V3 5 5 5; V3 5 5 6] "monatomic" 2 3);
    [vm_compute; reflexivity | vm_compute; discriminate].
Defined.

(** X11, witness: a file of two frames of one atom each. *)
Lemma read_xyz_last_frame_witness :
  read_xyz (fun _ => Some ["1"; "first"; "H 0 0 0"; "1"; "second"; "H 1 1 1"]%string)
    small_int small_float "trajectory.xyz"
  = Ok ([V3 1 1 1], ["H"%string], 1%Z).
Proof.
  rewrite (read_xyz_last_frame
             (fun _ => Some ["1"; "first"; "H 0 0 0"; "1"; "second"; "H 1 1 1"]%string)
             small_int small_float "trajectory.xyz"
             ["1"; "first"; "H 0 0 0"; "1"; "second"; "H 1 1 1"]%string
             ["1"; "first"; "H 0 0 0"; "1"; "second"]%string ["H 1 1 1"%string] 1 1);
    reflexivity.
Defined.

(** X12, witness: a file holding only the two header lines of a one-atom
    frame. *)
Lemma read_xyz_short_file_witness :
  read_xyz (fun _ => Some ["1"; "comment"]%string) small_int small_float "short.xyz"
  = Raise ValueError.
Proof.
  apply (read_xyz_short_file (fun _ => Some ["1"; "comment"]%string) small_int small_float
           "short.xyz" ["1"; "comment"]%string 1); reflexivity.
Defined.

(** X15, witness: the run that always fails, started from a status file
    holding the initial status, ends with consistent counters. *)
Lemma deposition_run_counters_witness :
  match Deposition_run malformed_files small_int small_float always_fail 5 "substrate.xyz"
          (Some initial_status) 2 1 with
  | Ok (_, status') => counters_consistent status'
  | _ => False
  end.
Proof.
  destruct (Deposition_run malformed_files small_int small_float always_fail 5 "substrate.xyz"
              (Some initial_status) 2 1) as [[code status']| |] eqn:E;
    [|vm_compute in E; discriminate ..].
  exact (proj2 (deposition_run_counters malformed_files small_int small_float always_fail 5
                  "substrate.xyz" initial_status 2 1 code status' E)
           ltac:(unfold counters_consistent; simpl; lia)).
Defined.

(** X16, witness: heights 1 and 5 in [cell10]; the percentages 40 and 80
    give the cutoffs 4 and 8. *)
Lemma get_surface_height_monotone_witness :
  exists m', get_surface_height cell10 [V3 5 5 1; V3 5 5 5] 80 = Ok m' /\ 1 <= m'.
Proof.
  apply (get_surface_height_monotone cell10 [V3 5 5 1; V3 5 5 5] 40 80 1);
    [vm_compute; discriminate | vm_compute; discriminate | vm_compute; reflexivity].
Defined.

(** X17, witness: a particle of [cell10] shifted by (1, 2, 0). *)
Lemma neighbour_check_horizontal_translation_witness :
  check_min_neighbours cell10 (map (fun p => vadd p (V3 1 2 0)) [V3 5 5 5]) "monatomic" 1
  = check_min_neighbours cell10 [V3 5 5 5] "monatomic" 1.
Proof.
  exact (proj2 (neighbour_check_horizontal_translation cell10 [V3 5 5 5] "monatomic" 1
                  (V3 1 2 0) ltac:(vm_compute; reflexivity))).
Defined.

(** X19, witness: with YAML files that are the mappings themselves, the
    initial status written by [write_status] is read back. *)
Lemma Deposition_status_round_trip_witness :
  Deposition_read_status small_int yaml_document identity_load
    (Some (Deposition_write_status yaml_document identity_dump 7 initial_status))
  = Ok (Some (1%Z, 0%Z, 0%Z, YStr "initial_positions.pickle"%string)).
Proof.
  exact (proj1 (Deposition_status_round_trip small_int yaml_document identity_dump
                  identity_load (fun d => ex_intro _ d (conj eq_refl (fun _ => eq_refl)))
                  7 initial_status)).
Defined.

(** X22, witness: two unit masses at (0, 0, 0) and (2, 0, 0), translated
    by (1, 1, 1). *)
Lemma get_centre_of_mass_translation_witness :
  match get_centre_of_mass unit_mass [V3 0 0 0; V3 2 0 0] ["H"%string; "H"%string] with
  | Ok (Some c, masses) =>
      exists c', get_centre_of_mass unit_mass (map (fun p => vadd p (V3 1 1 1)) [V3 0 0 0; V3 2 0 0])
                   ["H"%string; "H"%string] = Ok (Some c', masses) /\ veqv c' (vadd c (V3 1 1 1))
  | _ => False
  end.
Proof.
  destruct (get_centre_of_mass unit_mass [V3 0 0 0; V3 2 0 0] ["H"%string; "H"%string])
    as [[[c|] masses]| |] eqn:E; try (vm_compute in E; discriminate).
  exact (get_centre_of_mass_translation unit_mass [V3 0 0 0; V3 2 0 0] ["H"%string; "H"%string] (V3 1 1 1) c masses
           ltac:(simpl; lia) E).
Defined.

(** X23, witness: the same molecule. *)
Lemma get_moment_of_inertia_translation_witness :
  match get_moment_of_inertia unit_mass [V3 0 0 0; V3 2 0 0] ["H"%string; "H"%string] with
  | Ok (Some mi) =>
      exists mi', get_moment_of_inertia unit_mass (map (fun p => vadd p (V3 1 1 1)) [V3 0 0 0; V3 2 0 0])
                   ["H"%string; "H"%string] = Ok (Some mi') /\ veqv mi' mi
  | _ => False
  end.
Proof.
  destruct (get_moment_of_inertia unit_mass [V3 0 0 0; V3 2 0 0] ["H"%string; "H"%string])
    as [[mi|]| |] eqn:E; try (vm_compute in E; discriminate).
  exact (get_moment_of_inertia_translation unit_mass [V3 0 0 0; V3 2 0 0] ["H"%string; "H"%string] (V3 1 1 1) mi
           ltac:(simpl; lia) E).
Defined.

(** X25, witness: the x coordinate of the centre of two unit masses at
    x = 0 and x = 2 lies in [0, 2]. *)
Lemma get_centre_of_mass_in_bounds_witness :
  match get_centre_of_mass unit_mass [V3 0 0 0; V3 2 0 0] ["H"%string; "H"%string] with
  | Ok (Some c, _) => 0 <= x3 c <= 2
  | _ => False
  end.
Proof.
  destruct (get_centre_of_mass unit_mass [V3 0 0 0; V3 2 0 0] ["H"%string; "H"%string])
    as [[[c|] masses]| |] eqn:E; try (vm_compute in E; discriminate).
  exact (get_centre_of_mass_in_bounds unit_mass [V3 0 0 0; V3 2 0 0] ["H"%string; "H"%string]
           c masses ltac:(simpl; lia)
           ltac:(intros e m _ He; unfold unit_mass in He; injection He as <-; reflexivity)
           E x3 (or_introl eq_refl) 0 2
           ltac:(intros p [<- | [<- | []]]; split; apply Qle_bool_imp_le; reflexivity)).
Defined.
